(** * ilostat-simple-summarizer: the query core and the region crawl

    A shallow embedding of
    - [src/ilostat/_query.py]  (class [ILOStatQuery]),
    - [src/app/controller.py]  ([AppController.set_dataframe], [render_chart]),
    - [src/countries.py]       (the crawl that fills the [dataflows] table),
    followed by the properties of the specification, each stated on these
    definitions.

    Python values are modelled as follows.  A [str] that may also be [None]
    is an [option string]; a dict used as a map is a [gmap]; a dict (or an
    sdmx [DictLike]) that the code iterates over is an association list in
    insertion order; an exception is a value of [exn] carried by [Raise];
    the remote service, the table and the standard output form the [World]
    that every statement threads through. *)

From stdpp Require Import base option list strings gmap fin_maps.

Open Scope string_scope.
Open Scope list_scope.

(** ** Python values *)

(** The exceptions the modelled code can meet.  A [ValueError] carries the
    names its message lists; [RemoteError] stands for whatever else the
    sdmx client raises (transport, parsing). *)
Inductive exn :=
  | KeyError (key : string)
  | IndexError
  | IntegrityError
  | ValueError (names : list string)
  | TypeError
  | RemoteError (what : string).

Inductive Result (A : Type) :=
  | Ok (a : A)
  | Raise (e : exn).
Arguments Ok {A} a.
Arguments Raise {A} e.

(** Truth value of a [str | None]: [None] and the empty string are false. *)
Definition truthy (v : option string) : bool :=
  match v with
  | Some s => negb (String.eqb s EmptyString)
  | None => false
  end.

(** A dict in insertion order. *)
Definition dict (V : Type) : Type := list (string * V).

Fixpoint dict_get {V} (d : dict V) (k : string) : Result V :=
  match d with
  | [] => Raise (KeyError k)
  | (k', v) :: d' => if String.eqb k' k then Ok v else dict_get d' k
  end.

(** [list(d)]: the keys of [d], in order. *)
Definition dict_keys {V} (d : dict V) : list string := map fst d.

(** [l[0]] *)
Definition first {A} (l : list A) : Result A :=
  match l with
  | [] => Raise IndexError
  | x :: _ => Ok x
  end.

(** ** pandas *)

(** A cell of a pandas object: a text, a float64 number (of which the
    model keeps the whole ones), or NaN. *)
Inductive cell :=
  | Str (s : string)
  | Num (x : Z)
  | NaN.

(** A cell of a float64 column. *)
Definition is_float (c : cell) : bool :=
  match c with
  | Str _ => false
  | _ => true
  end.

#[global] Instance cell_eq_dec : EqDecision cell.
Proof. solve_decision. Defined.

(** A pandas Series over a MultiIndex: the level names, and one entry per
    index tuple. *)
Record Series := {
  index_names : list string;
  entries : list (list cell * cell)
}.

Record DataFrame := {
  columns : list string;
  rows : list (list cell)
}.

(** [series.reset_index(name=...)]: the values become the column [name]
    and the index levels are inserted before it as columns, from the last
    level to the first, one row per entry.  A level whose name is a column
    already cannot be inserted: pandas raises a ValueError that names it. *)
Fixpoint first_collision (levels present : list string) : option string :=
  match levels with
  | [] => None
  | level :: levels' =>
      if bool_decide (level ∈ present) then Some level
      else first_collision levels' (level :: present)
  end.

Definition reset_index (s : Series) (name : string) : Result DataFrame :=
  match first_collision (reverse (index_names s)) [name] with
  | Some level => Raise (ValueError [level])
  | None =>
      Ok {| columns := index_names s ++ [name];
            rows := map (λ e, e.1 ++ [e.2]) (entries s) |}
  end.

(** The position of the first column called [col]. *)
Fixpoint column_index (cols : list string) (col : string) : option nat :=
  match cols with
  | [] => None
  | c :: cols' =>
      if String.eqb c col then Some 0 else S <$> column_index cols' col
  end.

Definition replace_cell (old new c : cell) : cell :=
  if decide (c = old) then new else c.

(** [df[col] = df[col].replace(old, new, regex=False)]: in every column
    called [col] every cell equal to [old] becomes [new]. *)
Fixpoint replace_in_row (cols : list string) (col : string) (old new : cell)
    (row : list cell) : list cell :=
  match cols, row with
  | c :: cols', x :: row' =>
      (if String.eqb c col then replace_cell old new x else x)
        :: replace_in_row cols' col old new row'
  | _, _ => row
  end.

Definition replace_in_column (df : DataFrame) (col : string) (old new : cell)
    : DataFrame :=
  {| columns := columns df;
     rows := map (replace_in_row (columns df) col old new) (rows df) |}.

(** ** The sdmx information model, as far as the code reads it *)

Module sdmx.

Record Dimension := { dim_id : string; dim_codes : list (string * string) }.

(** A data structure definition: its dimensions, in key order. *)
Definition DSD : Type := list Dimension.

Definition dsd_keys (dsd : DSD) : list string := map dim_id dsd.

(** The keys of a dict key that the structure does not declare: what
    [DataStructureDefinition.make_constraint] finds left over. *)
Definition undeclared (dsd : DSD) (key : gmap string (option string))
    : list string :=
  filter (λ k, k ∉ dsd_keys dsd) (map fst (map_to_list key)).

(** The dimensions of the structure for which a dict key holds [None]. *)
Definition unset (dsd : DSD) (key : gmap string (option string))
    : list string :=
  filter (λ k, key !! k = Some None) (dsd_keys dsd).

(** [dsd.make_constraint(key)], as far as it can fail.  It pops from a copy
    of the key the value of each dimension of the structure, in order, and
    iterates over the codes of that value: [None] is not iterable, a
    TypeError.  The keys left over after that are those the structure does
    not declare: if there are any, it raises a ValueError that lists
    them. *)
Definition make_constraint (dsd : DSD) (key : gmap string (option string))
    : Result () :=
  match unset dsd key with
  | _ :: _ => Raise TypeError
  | [] =>
      match undeclared dsd key with
      | [] => Ok ()
      | (_ :: _) as names => Raise (ValueError names)
      end
  end.

Record DataflowDefinition := { structure : DSD }.

Record MemberValue := { value : string }.
Record MemberSelection := { values : list MemberValue }.
Record CubeRegion := { member : dict MemberSelection }.
Record ContentConstraint := { data_content_region : list CubeRegion }.

(** The message answered by [Client.dataflow]. *)
Record StructureMessage := {
  dataflow : dict DataflowDefinition;
  constraint : dict ContentConstraint
}.

(** The part of the sdmx library that is a function of the library rather
    than an answer of the service: the type of a result group (a [DataSet])
    and its flattening [sdmx.to_pandas] into a Series.  The flattening
    casts the observation values to float64, so it can raise, and the
    values of a series it returns are numbers or NaN. *)
Class Sdmx := {
  DataSet : Type;
  to_pandas : DataSet → Result Series;
  to_pandas_float : ∀ group series,
    to_pandas group = Ok series →
    Forall (λ e, is_float e.2 = true) (entries series)
}.

Record DataMessage `{Sdmx} := { data : list DataSet }.

(** The remote service behind [sdmx.Client("ILO")]: what it answers to
    [client.dataflow()], [client.dataflow(id)] and
    [client.data(id, dsd=, key=, params=)]. *)
Record Remote `{Sdmx} := {
  remote_dataflow : option string → Result StructureMessage;
  remote_data : string → option DSD → gmap string (option string) →
                gmap string (option string) → Result DataMessage
}.

End sdmx.
Import sdmx.

(** ** The world: remote service, table, standard output *)

Inductive RemoteCall :=
  | CallDataflow (id : option string)
  | CallData (id : string) (dsd : option DSD)
             (key params : gmap string (option string)).

Inductive Printed :=
  | Added (n : nat) (dataflow_id : string)
  | Finished (dataflow_id : string)
  | Processed (done total : nat).

(** A row of the table [dataflows(region, dataflow)]. *)
Definition Row : Type := string * string.

Record World := {
  calls : list RemoteCall;   (* the remote round trips made so far *)
  db : list Row;             (* the committed rows of [dataflows] *)
  stdout : list Printed
}.

(** Statements: they read and change the world, and return or raise. *)
Definition M (A : Type) : Type := World → Result A * World.

#[global] Instance M_ret : MRet M := λ A a w, (Ok a, w).
#[global] Instance M_bind : MBind M := λ A B f m w,
  match m w with
  | (Ok a, w') => f a w'
  | (Raise e, w') => (Raise e, w')
  end.

Definition lift {A} (r : Result A) : M A := λ w, (r, w).

Fixpoint for_each {A} (l : list A) (body : A → M ()) : M () :=
  match l with
  | [] => mret ()
  | x :: l' => body x ;; for_each l' body
  end.

Definition client_dataflow `{Sdmx} (client : Remote) (id : option string)
    : M StructureMessage :=
  λ w, (remote_dataflow client id,
        {| calls := calls w ++ [CallDataflow id]; db := db w;
           stdout := stdout w |}).

(** [client.data(id, dsd=, key=, params=)] with a dict as key.  The client
    first makes a constraint from the key and the structure, which can
    raise; only then is the request sent.  Given no structure, the client
    fetches the one of the dataflow for this check. *)
Definition request_data `{Sdmx} (client : Remote) (id : string) (dsd : DSD)
    (key params : gmap string (option string)) : M DataMessage :=
  match make_constraint dsd key with
  | Ok _ =>
      λ w, (remote_data client id (Some dsd) key params,
            {| calls := calls w ++ [CallData id (Some dsd) key params];
               db := db w; stdout := stdout w |})
  | Raise e => lift (Raise e)
  end.

Definition client_data `{Sdmx} (client : Remote) (id : string)
    (dsd : option DSD) (key params : gmap string (option string))
    : M DataMessage :=
  match dsd with
  | Some dsd => request_data client id dsd key params
  | None =>
      msg ← client_dataflow client (Some id);
      flow ← lift (dict_get (dataflow msg) id);
      request_data client id (structure flow) key params
  end.

Definition print (p : Printed) : M () :=
  λ w, (Ok (), {| calls := calls w; db := db w; stdout := stdout w ++ [p] |}).

(** ** src/ilostat/_query.py *)

Module ILOStatQuery.
Section Class.
Context `{Sdmx}.

Record t := {
  dataflow : string;
  dimensions : gmap string (option string);
  params : gmap string (option string);
  _ilostat : Remote;
  _dsd : option DSD
}.

Definition _set_dsd (self : t) : M t :=
  (* Get the dataflow message *)
  df_msg ← client_dataflow (_ilostat self) (Some (dataflow self));
  (* Get the dataflow structure *)
  df_flow ← lift (dict_get (sdmx.dataflow df_msg) (dataflow self));
  (* Get the DSD *)
  mret {| dataflow := dataflow self; dimensions := dimensions self;
          params := params self; _ilostat := _ilostat self;
          _dsd := Some (structure df_flow) |}.

(** [ILOStatQuery(dataflow, dimensions, params)]; [ilo] is the service
    that the new [sdmx.Client("ILO")] talks to. *)
Definition __init__ (ilo : Remote) (dataflow : string)
    (dimensions params : gmap string (option string)) : M t :=
  _set_dsd {| dataflow := dataflow; dimensions := dimensions;
              params := params; _ilostat := ilo; _dsd := None |}.

Definition data (self : t) : M DataFrame :=
  (* Get the dataflow message *)
  data_msg ← client_data (_ilostat self) (dataflow self) (_dsd self)
                         (dimensions self) (params self);
  data ← lift (first (sdmx.data data_msg));
  series_data ← lift (to_pandas data);
  df ← lift (reset_index series_data "value");
  mret df.

End Class.
End ILOStatQuery.

(** ** src/app/controller.py *)

Module AppController.

(** The facade [ilostat.ilostat.ILOStat] is not among the sources.  The
    controller uses its [query] method, the [data] method of the query it
    returns, and the [dataframe] attribute of that result; they are the
    fields of this interface. *)
Record ILOStat := {
  Query : Type;
  QueryResult : Type;
  query : string → gmap string (option string) →
          gmap string (option string) → M Query;
  query_data : Query → M QueryResult;
  dataframe : QueryResult → DataFrame
}.

Record t := { _ilostat : ILOStat }.

Definition set_dataframe (self : t) (area : option string)
    (dataflow : string) (dimensions : gmap string (option string))
    (start_period end_period : option string) : M DataFrame :=
  (* Filter out keys with null or empty values from dimensions *)
  let dimensions := filter (λ kv, truthy kv.2) dimensions in
  (* Include the area if it's provided *)
  let dimensions :=
    if truthy area then <["REF_AREA" := area]> dimensions else dimensions in
  (* Create query parameters excluding null values *)
  let params :=
    filter (λ kv, truthy kv.2)
      (<["endPeriod" := end_period]> (<["startPeriod" := start_period]> ∅)) in
  (* Execute the query with the specified parameters *)
  query ← query (_ilostat self) dataflow dimensions params;
  result ← query_data (_ilostat self) query;
  mret (dataframe (_ilostat self) result).

(** [render_chart], up to the frame that is plotted ([None] when the frame
    has no [value] column and nothing is drawn). *)
Definition render_chart (df : DataFrame) : option DataFrame :=
  if bool_decide ("value" ∈ columns df) then
    (* Replace empty strings with NaN for consistency *)
    Some (replace_in_column df "value" (Str EmptyString) NaN)
  else None.


End AppController.

(** Modelled from the spec: the facade [ILOStat] of [ilostat/ilostat.py],
    which is not among the sources.  Section 6 describes the data-fetch
    call as the query executor's contract behind a thin area mapping done
    by the caller: [query] builds an [ILOStatQuery] of [_query.py], [data]
    wraps the frame of its [data] in a result object, and [dataframe] is
    the attribute that holds the frame. *)
Record Tabular := { dataframe : DataFrame }.

Definition ILOStat_of_query `{Sdmx} (ilo : Remote) : AppController.ILOStat :=
  {| AppController.Query := ILOStatQuery.t;
     AppController.QueryResult := Tabular;
     AppController.query := ILOStatQuery.__init__ ilo;
     AppController.query_data := λ query,
       df ← ILOStatQuery.data query; mret {| dataframe := df |};
     AppController.dataframe := dataframe |}.

(** ** src/countries.py *)

Module countries.
Section Script.
Context `{Sdmx}.

(** The table [dataflows] is declared by [init_db], which is not among the
    sources: [unique] tells whether that declaration makes the pair
    (region, dataflow) unique.  [init_db()] creates the table when it is
    absent and leaves its rows alone. *)
Variable unique : bool.

(** The service behind the module's [ilostat = sdmx.Client("ILO")]. *)
Variable ilostat : Remote.

(** [cur.execute("INSERT INTO dataflows(region, dataflow) VALUES(?, ?)", row)]
    followed by [con.commit()].  Under a uniqueness constraint SQLite
    refuses a pair that the table already holds. *)
Definition execute_insert (row : Row) : M () := λ w,
  if unique && bool_decide (row ∈ db w) then (Raise IntegrityError, w)
  else (Ok (), {| calls := calls w; db := db w ++ [row];
                  stdout := stdout w |}).

(** The body of [for constraint_id in constraint_ids]. *)
Definition constraint_body (dataflow_id : string)
    (constraints : dict ContentConstraint) (constraint_id : string) : M () :=
  (* Get the constraint *)
  constraint ← lift (dict_get constraints constraint_id);
  (* Get the content region included in the constraints *)
  cr ← lift (first (data_content_region constraint));
  (* Get the members of the content region *)
  let members := member cr in
  (* Get the first member *)
  ref_area ← lift (dict_get members "REF_AREA");
  (* Get the values of the member *)
  let member_values := values ref_area in
  (* For each value: insert the dataflow into the database *)
  for_each member_values (λ member_value,
    execute_insert (value member_value, dataflow_id));;
  print (Added (length member_values) dataflow_id).

(** The body of [for dataflow_id in dataflows_ids]; it returns the new
    value of [dataflows_processed]. *)
Definition dataflow_body (dataflows_ids : list string)
    (dataflows_processed : nat) (dataflow_id : string) : M nat :=
  (* Get the data flow *)
  dataflow ← client_dataflow ilostat (Some dataflow_id);
  (* Get the constraints *)
  let constraints := constraint dataflow in
  (* Get the constraint ids *)
  let constraint_ids := dict_keys constraints in
  for_each constraint_ids (constraint_body dataflow_id constraints);;
  (* Increment the number of dataflows processed *)
  let dataflows_processed := dataflows_processed + 1 in
  print (Finished dataflow_id);;
  print (Processed dataflows_processed (length dataflows_ids));;
  mret dataflows_processed.

Fixpoint dataflow_loop (dataflows_ids todo : list string)
    (dataflows_processed : nat) : M () :=
  match todo with
  | [] => mret ()
  | dataflow_id :: todo' =>
      dataflows_processed ←
        dataflow_body dataflows_ids dataflows_processed dataflow_id;
      dataflow_loop dataflows_ids todo' dataflows_processed
  end.

(** The script, from the listing of the dataflows on. *)
Definition main : M () :=
  (* Get a list of all of the data flows *)
  dataflows_msg ← client_dataflow ilostat None;
  (* Get the dataflow ids *)
  let dataflows_ids := dict_keys (dataflow dataflows_msg) in
  (* Initialize the number of dataflows processed *)
  let dataflows_processed := 0 in
  dataflow_loop dataflows_ids dataflows_ids dataflows_processed.

End Script.
End countries.

(** ** What [set_dataframe] hands to the query

    The two dicts that [set_dataframe] builds, and the calls it makes
    with them. *)

Definition selection_sent (area : option string)
    (dimensions : gmap string (option string)) : gmap string (option string) :=
  let dimensions := filter (λ kv, truthy kv.2) dimensions in
  if truthy area then <["REF_AREA" := area]> dimensions else dimensions.

Definition params_sent (start_period end_period : option string)
    : gmap string (option string) :=
  filter (λ kv, truthy kv.2)
    (<["endPeriod" := end_period]> (<["startPeriod" := start_period]> ∅)).

Definition run_query (self : AppController.t) (dataflow : string)
    (key params : gmap string (option string)) : M DataFrame :=
  query ← AppController.query (AppController._ilostat self) dataflow key params;
  result ← AppController.query_data (AppController._ilostat self) query;
  mret (AppController.dataframe (AppController._ilostat self) result).

(** ** What the crawl inserts *)

Section Inserted.
Context `{Sdmx}.

(** The table after [execute_insert] has been attempted on [rows], in
    order, up to the first row that the table refuses. *)
Fixpoint insert_all (unique : bool) (table rows : list Row) : list Row :=
  match rows with
  | [] => table
  | row :: rows' =>
      if unique && bool_decide (row ∈ table) then table
      else insert_all unique (table ++ [row]) rows'
  end.

(** Whether the table refuses one of [rows]. *)
Fixpoint refused (unique : bool) (table rows : list Row) : bool :=
  match rows with
  | [] => false
  | row :: rows' =>
      if unique && bool_decide (row ∈ table) then true
      else refused unique (table ++ [row]) rows'
  end.

(** The rows a loop attempts to insert, in order, and how it ends when
    no row is refused: [f x] tells it of the body at [x]. *)
Fixpoint walk {A} (f : A → list Row * Result ()) (l : list A)
    : list Row * Result () :=
  match l with
  | [] => ([], Ok ())
  | x :: l' =>
      match f x with
      | (rows, Ok _) => let '(rows', r) := walk f l' in (rows ++ rows', r)
      | (rows, Raise e) => (rows, Raise e)
      end
  end.

Definition entry_rows (dataflow_id : string) (c : ContentConstraint)
    : list Row * Result () :=
  match first (data_content_region c) with
  | Raise e => ([], Raise e)
  | Ok cr =>
      match dict_get (member cr) "REF_AREA" with
      | Raise e => ([], Raise e)
      | Ok ref_area =>
          (map (λ mv, (value mv, dataflow_id)) (values ref_area), Ok ())
      end
  end.

Definition constraint_rows (dataflow_id : string)
    (constraints : dict ContentConstraint) (constraint_id : string)
    : list Row * Result () :=
  match dict_get constraints constraint_id with
  | Raise e => ([], Raise e)
  | Ok c => entry_rows dataflow_id c
  end.

Definition dataflow_rows (ilostat : Remote) (dataflow_id : string)
    : list Row * Result () :=
  match remote_dataflow ilostat (Some dataflow_id) with
  | Raise e => ([], Raise e)
  | Ok msg =>
      walk (constraint_rows dataflow_id (constraint msg))
           (dict_keys (constraint msg))
  end.

Definition main_rows (ilostat : Remote) : list Row * Result () :=
  match remote_dataflow ilostat None with
  | Raise e => ([], Raise e)
  | Ok msg => walk (dataflow_rows ilostat) (dict_keys (dataflow msg))
  end.

(** The region codes of the REF_AREA member set of a constraint's first
    content region, when it has one. *)
Definition ref_area_codes (c : ContentConstraint) : option (list string) :=
  match data_content_region c with
  | [] => None
  | cr :: _ =>
      match dict_get (member cr) "REF_AREA" with
      | Ok ref_area => Some (map value (values ref_area))
      | Raise _ => None
      end
  end.

(** One pair per region code, with the dataflow's id. *)
Definition constraint_pairs (dataflow_id : string) (c : ContentConstraint)
    : list Row :=
  map (λ code, (code, dataflow_id)) (default [] (ref_area_codes c)).

Definition region_pairs (ilostat : Remote) (dataflow_id : string)
    : list Row :=
  match remote_dataflow ilostat (Some dataflow_id) with
  | Ok msg => flat_map (λ kc, constraint_pairs dataflow_id kc.2) (constraint msg)
  | Raise _ => []
  end.

(** A dataflow that the crawl gets through: its constraints are fetched,
    and the first content region of each has a REF_AREA member set. *)
Definition crawlable (ilostat : Remote) (dataflow_id : string) : bool :=
  match remote_dataflow ilostat (Some dataflow_id) with
  | Ok msg =>
      bool_decide (NoDup (dict_keys (constraint msg)))
      && forallb (λ kc, bool_decide (is_Some (ref_area_codes kc.2)))
                 (constraint msg)
  | Raise _ => false
  end.

(** The outcome of a statement, without the value it returns. *)
Definition outcome {A} (r : Result A) : Result () :=
  match r with
  | Ok _ => Ok ()
  | Raise e => Raise e
  end.

(** [m] attempts to insert [rows], in order, does nothing else to the
    table, and ends as [res] unless a row is refused. *)
Definition tracks {A} (unique : bool) (m : M A) (rows : list Row)
    (res : Result ()) : Prop :=
  ∀ w, db (m w).2 = insert_all unique (db w) rows
       ∧ outcome (m w).1
         = if refused unique (db w) rows then Raise IntegrityError else res.

(** A statement that leaves the table alone and always ends as [r]. *)
Definition quiet {A} (m : M A) (r : Result A) : Prop :=
  ∀ w, (m w).1 = r ∧ db (m w).2 = db w.

(** The world after [n] calls of [query.data()], whatever they return. *)
Fixpoint data_calls (self : ILOStatQuery.t) (n : nat) (w : World) : World :=
  match n with
  | 0 => w
  | S n' => data_calls self n' (ILOStatQuery.data self w).2
  end.

End Inserted.

(** ** Example services *)

Module Examples.

(** Result groups with at least one observation, each observation given
    by the values of its key and an observation value that is a whole
    number or missing.  The flattening has one entry per observation, the
    key values as index cells, and the value cast: NaN for a missing one. *)
Record Observations := {
  levels : list string;
  observation : list string * option Z;
  observations : list (list string * option Z)
}.

Definition cast (v : option Z) : cell :=
  match v with
  | Some x => Num x
  | None => NaN
  end.

Definition flatten (group : Observations) : Result Series :=
  Ok {| index_names := levels group;
        entries := map (λ o, (map Str o.1, cast o.2))
                     (observation group :: observations group) |}.

Definition flat : Sdmx.
Proof.
  refine {| DataSet := Observations; to_pandas := flatten |}.
  intros group series [= <-]. simpl. apply Forall_cons. split.
  - destruct (observation group) as [key [x|]]; reflexivity.
  - apply Forall_forall. intros e He.
    apply list_elem_of_fmap in He as ([key [x|]] & -> & _); reflexivity.
Defined.

Definition world0 : World := {| calls := []; db := []; stdout := [] |}.

(** A constraint with one content region whose REF_AREA member set holds
    [codes]. *)
Definition region_constraint (codes : list string) : ContentConstraint :=
  {| data_content_region :=
       [ {| member := [("REF_AREA", {| values := map Build_MemberValue codes |})] |} ] |}.

(** A constraint whose only content region constrains FREQ alone. *)
Definition freq_constraint : ContentConstraint :=
  {| data_content_region :=
       [ {| member := [("FREQ", {| values := [ {| value := "A" |} ] |})] |} ] |}.

Definition listing (ids : list string) : StructureMessage :=
  {| dataflow := map (λ id, (id, {| structure := [] |})) ids;
     constraint := [] |}.

Definition no_data : string → option DSD → gmap string (option string) →
    gmap string (option string) → Result (@DataMessage flat) :=
  λ _ _ _ _, Raise (RemoteError "no data").

(** One dataflow, DF_X, whose single constraint has the region member set
    [ITA, FRA]. *)
Definition catalog_X : @Remote flat :=
  {| remote_dataflow := λ id,
       match id with
       | None => Ok (listing ["DF_X"])
       | Some id =>
           if String.eqb id "DF_X" then
             Ok {| dataflow := [("DF_X", {| structure := [] |})];
                   constraint := [("CR_X", region_constraint ["ITA"; "FRA"])] |}
           else Raise (RemoteError "not found")
       end;
     remote_data := no_data |}.

(** Three dataflows; fetching the constraints of the second one fails. *)
Definition catalog_3 : @Remote flat :=
  {| remote_dataflow := λ id,
       match id with
       | None => Ok (listing ["DF_1"; "DF_2"; "DF_3"])
       | Some id =>
           if String.eqb id "DF_1" then
             Ok {| dataflow := []; constraint := [("CR_1", region_constraint ["ITA"])] |}
           else if String.eqb id "DF_3" then
             Ok {| dataflow := []; constraint := [("CR_3", region_constraint ["DEU"])] |}
           else Raise (RemoteError "timeout")
       end;
     remote_data := no_data |}.

(** One dataflow with two constraints; the first has no REF_AREA member
    set, the second has [ITA]. *)
Definition catalog_F : @Remote flat :=
  {| remote_dataflow := λ id,
       match id with
       | None => Ok (listing ["DF_F"])
       | Some id =>
           Ok {| dataflow := [];
                 constraint := [("CR_FREQ", freq_constraint);
                                ("CR_AREA", region_constraint ["ITA"])] |}
       end;
     remote_data := no_data |}.

(** A dataflow DF_Y with the dimensions FREQ and REF_AREA and the time
    dimension; every data query is answered with two groups.  The second
    observation of the first group has no value. *)
Definition dsd_Y : DSD :=
  [ {| dim_id := "FREQ"; dim_codes := [("A", "Annual")] |};
    {| dim_id := "REF_AREA"; dim_codes := [("ITA", "Italy"); ("FRA", "France")] |};
    {| dim_id := "TIME_PERIOD"; dim_codes := [] |} ].

Definition group_Y : Observations :=
  {| levels := ["FREQ"; "REF_AREA"; "TIME_PERIOD"];
     observation := (["A"; "ITA"; "2015"], Some 23%Z);
     observations := [ (["A"; "ITA"; "2016"], None) ] |}.

Definition group_Z : Observations :=
  {| levels := ["FREQ"; "REF_AREA"; "TIME_PERIOD"];
     observation := (["A"; "FRA"; "2015"], Some 7%Z);
     observations := [] |}.

Definition series_Y : Series :=
  {| index_names := ["FREQ"; "REF_AREA"; "TIME_PERIOD"];
     entries := [ ([Str "A"; Str "ITA"; Str "2015"], Num 23);
                  ([Str "A"; Str "ITA"; Str "2016"], NaN) ] |}.

Definition service_Y : @Remote flat :=
  {| remote_dataflow := λ _,
       Ok {| dataflow := [("DF_Y", {| structure := dsd_Y |})];
             constraint := [] |};
     remote_data := λ _ _ _ _, Ok (@Build_DataMessage flat [group_Y; group_Z]) |}.

(** The query object that [ILOStatQuery("DF_Y", key, params)] builds. *)
Definition query_Y (key params : gmap string (option string))
    : @ILOStatQuery.t flat :=
  {| ILOStatQuery.dataflow := "DF_Y";
     ILOStatQuery.dimensions := key;
     ILOStatQuery.params := params;
     ILOStatQuery._ilostat := service_Y;
     ILOStatQuery._dsd := Some dsd_Y |}.

Definition frame_Y : DataFrame :=
  {| columns := ["FREQ"; "REF_AREA"; "TIME_PERIOD"; "value"];
     rows := [ [Str "A"; Str "ITA"; Str "2015"; Num 23];
               [Str "A"; Str "ITA"; Str "2016"; NaN] ] |}.





(** A selection with a key that DF_Y does not declare. *)
Definition bogus_selection : gmap string (option string) :=
  <["BOGUS" := Some "x"]> ∅.

(** A selection as the dropdowns deliver it: SEX is left empty, and
    REF_AREA differs from the area chosen. *)
Definition sparse_selection : gmap string (option string) :=
  <["FREQ" := Some "A"]> (<["SEX" := Some EmptyString]> (<["MTS" := None]>
    (<["REF_AREA" := Some "FRA"]> ∅))).

End Examples.

(** ** More of src/app/controller.py *)

(** [l[i]] *)
Definition subscript {A} (l : list A) (i : nat) : Result A :=
  match l !! i with
  | Some x => Ok x
  | None => Raise IndexError
  end.

Module Dimensions.

(** An entry of the list that [init_current_dimensions] is given: a dict
    with the keys [dimension] (a sequence that starts with the dimension
    key) and [values] (the choices, each a sequence whose second component
    is the code). *)
Record entry := {
  dimension : list string;
  values : list (list string)
}.

(** [dim["dimension"][0]] *)
Definition entry_key (dim : entry) : Result string :=
  subscript (dimension dim) 0.

(** [dim["values"][0][1]] *)
Definition entry_default (dim : entry) : Result string :=
  match subscript (values dim) 0 with
  | Ok choice => subscript choice 1
  | Raise e => Raise e
  end.

(** The loop of [init_current_dimensions], from the dict built so far. *)
Fixpoint fill (dimensions : list entry)
    (current_dimensions : gmap string (option string))
    : Result (gmap string (option string)) :=
  match dimensions with
  | [] => Ok current_dimensions
  | dim :: dimensions' =>
      (* Extract dimension key *)
      match entry_key dim with
      | Raise e => Raise e
      | Ok key =>
          (* Extract default value *)
          match entry_default dim with
          | Raise e => Raise e
          | Ok val => fill dimensions' (<[key := Some val]> current_dimensions)
          end
      end
  end.

Definition init_current_dimensions (dimensions : list entry)
    : Result (gmap string (option string)) :=
  let current_dimensions := ∅ in
  fill dimensions current_dimensions.

(** An entry that has a key and a first choice with a code. *)
Definition complete (dim : entry) : bool :=
  match dimension dim, values dim with
  | _ :: _, (_ :: _ :: _) :: _ => true
  | _, _ => false
  end.

(** The keys of the entries that have one, in order. *)
Definition entry_keys (dimensions : list entry) : list string :=
  omap (λ dim, head (dimension dim)) dimensions.

End Dimensions.

Module Chart.

(** [str.lower()] and [sub in s], on ASCII names. *)
Definition lower_ascii (a : Ascii.ascii) : Ascii.ascii :=
  let n := Ascii.nat_of_ascii a in
  if Nat.leb 65 n && Nat.leb n 90 then Ascii.ascii_of_nat (n + 32) else a.

Fixpoint lower (s : string) : string :=
  match s with
  | EmptyString => EmptyString
  | String a s' => String (lower_ascii a) (lower s')
  end.

Fixpoint contains (sub s : string) : bool :=
  String.prefix sub s
  || match s with
     | EmptyString => false
     | String _ s' => contains sub s'
     end.

(** [[col for col in df.columns if "classif" in col.lower()]] *)
Definition classifications (df : DataFrame) : list string :=
  filter (λ col, contains "classif" (lower col)) (columns df).

(** [df[col]] *)
Definition column (df : DataFrame) (col : string) : Result (list cell) :=
  match column_index (columns df) col with
  | None => Raise (KeyError col)
  | Some i => Ok (map (λ r, default NaN (r !! i)) (rows df))
  end.

(** A call [plt.plot(x, y, label=...)]. *)
Record Line := { xs : list cell; ys : list cell; label : cell }.

Section Plot.

(** [df.groupby(col)] is pandas': the groups of a frame by a column, each
    with its name. *)
Variable groupby : DataFrame → string → list (cell * DataFrame).

Fixpoint plot_groups (groups : list (cell * DataFrame)) : Result (list Line) :=
  match groups with
  | [] => Ok []
  | (group_name, group_df) :: groups' =>
      match column group_df "TIME_PERIOD" with
      | Raise e => Raise e
      | Ok x =>
          match column group_df "value" with
          | Raise e => Raise e
          | Ok y =>
              match plot_groups groups' with
              | Raise e => Raise e
              | Ok lines => Ok ({| xs := x; ys := y; label := group_name |} :: lines)
              end
          end
      end
  end.

Fixpoint plot_classifications (df : DataFrame) (classifications : list string)
    : Result (list Line) :=
  match classifications with
  | [] => Ok []
  | classification :: classifications' =>
      match plot_groups (groupby df classification) with
      | Raise e => Raise e
      | Ok lines =>
          match plot_classifications df classifications' with
          | Raise e => Raise e
          | Ok lines' => Ok (lines ++ lines')
          end
      end
  end.

(** The lines that [render_chart] draws: none at all ([None]) for a frame
    without a [value] column; otherwise one for every group of every
    classification column of the frame with its empty values replaced. *)
Definition render_chart_lines (df : DataFrame) : option (Result (list Line)) :=
  match AppController.render_chart df with
  | None => None
  | Some df =>
      (* Group and plot data based on classification columns *)
      let classifications := classifications df in
      Some (plot_classifications df classifications)
  end.

End Plot.
End Chart.

(** ** What the crawl reports and asks *)

(** The lines of the output that tell of a finished dataflow. *)
Definition is_progress (p : Printed) : bool :=
  match p with
  | Added _ _ => false
  | _ => true
  end.

Definition progress (out : list Printed) : list Printed :=
  filter (λ p, is_progress p) out.

(** The progress lines of a run over [ids], [processed] dataflows having
    been counted before. *)
Fixpoint progress_lines (total : nat) (ids : list string) (processed : nat)
    : list Printed :=
  match ids with
  | [] => []
  | id :: ids' =>
      Finished id :: Processed (S processed) total
        :: progress_lines total ids' (S processed)
  end.

(** The ids that the listing of the service holds. *)
Definition listed `{Sdmx} (ilostat : Remote) : list string :=
  match remote_dataflow ilostat None with
  | Ok msg => dict_keys (dataflow msg)
  | Raise _ => []
  end.

(** A constraint cut down to its first content region, and the service
    that answers as [ilostat] does with every constraint cut down so. *)
Definition first_region_only (c : ContentConstraint) : ContentConstraint :=
  {| data_content_region := take 1 (data_content_region c) |}.

Definition first_regions_only `{Sdmx} (ilostat : Remote) : Remote :=
  {| remote_dataflow := λ id,
       match remote_dataflow ilostat id with
       | Ok msg =>
           Ok {| dataflow := dataflow msg;
                 constraint := map (λ kc, (kc.1, first_region_only kc.2))
                                 (constraint msg) |}
       | Raise e => Raise e
       end;
     remote_data := remote_data ilostat |}.

(** A series each of whose entries has one index cell per level. *)
Definition rectangular (s : Series) : Prop :=
  Forall (λ e, length e.1 = length (index_names s)) (entries s).

(** ** More example data *)

Module MoreExamples.

Definition sex_entry : Dimensions.entry :=
  {| Dimensions.dimension := ["SEX"; "Sex"];
     Dimensions.values := [["Total"; "SEX_T"]; ["Male"; "SEX_M"]] |}.

Definition freq_entry : Dimensions.entry :=
  {| Dimensions.dimension := ["FREQ"; "Frequency"];
     Dimensions.values := [["Annual"; "A"]] |}.

(** A later entry for SEX again, with another first choice. *)
Definition sex_entry' : Dimensions.entry :=
  {| Dimensions.dimension := ["SEX"; "Sex"];
     Dimensions.values := [["Female"; "SEX_F"]] |}.

(** An entry without choices. *)
Definition bare_entry : Dimensions.entry :=
  {| Dimensions.dimension := ["AGE"; "Age"]; Dimensions.values := [] |}.

(** A constraint without content regions. *)
Definition hollow_constraint : ContentConstraint :=
  {| data_content_region := [] |}.

(** One dataflow whose first constraint has the region member set [ITA]
    and whose second has no content region. *)
Definition catalog_H : @Remote Examples.flat :=
  {| remote_dataflow := λ id,
       match id with
       | None => Ok (Examples.listing ["DF_H"])
       | Some id =>
           Ok {| dataflow := [];
                 constraint := [("CR_AREA", Examples.region_constraint ["ITA"]);
                                ("CR_HOLLOW", hollow_constraint)] |}
       end;
     remote_data := Examples.no_data |}.

(** One dataflow whose constraint has two content regions: [ITA] in the
    first, [FRA] in the second. *)
Definition catalog_2R : @Remote Examples.flat :=
  {| remote_dataflow := λ id,
       match id with
       | None => Ok (Examples.listing ["DF_R"])
       | Some id =>
           Ok {| dataflow := [];
                 constraint :=
                   [("CR_R",
                     {| data_content_region :=
                          [ {| member := [("REF_AREA",
                                 {| values := [ {| value := "ITA" |} ] |})] |};
                            {| member := [("REF_AREA",
                                 {| values := [ {| value := "FRA" |} ] |})] |} ] |})] |}
       end;
     remote_data := Examples.no_data |}.

(** A service that knows no dataflow, and one that cannot be reached. *)
Definition service_empty : @Remote Examples.flat :=
  {| remote_dataflow := λ _, Ok {| dataflow := []; constraint := [] |};
     remote_data := λ _ _ _ _, Ok (@Build_DataMessage Examples.flat []) |}.

Definition service_down : @Remote Examples.flat :=
  {| remote_dataflow := λ _, Raise (RemoteError "unreachable");
     remote_data := Examples.no_data |}.

(** A frame with a classification column, and the grouping of it by that
    column. *)
Definition frame_S : DataFrame :=
  {| columns := ["CLASSIF1"; "TIME_PERIOD"; "value"];
     rows := [ [Str "SEX_M"; Str "2015"; Str "1"];
               [Str "SEX_F"; Str "2015"; Str EmptyString] ] |}.

End MoreExamples.

(** * Properties *)

(** ** Dicts and tables *)

Lemma dict_get_absent {V} (d : dict V) (k : string) :
  k ∉ dict_keys d → dict_get d k = Raise (KeyError k).
Proof.
  induction d as [|[k' v] d IH]; simpl; [done|].
  intros Hk. apply not_elem_of_cons in Hk as [Hne Hk].
  destruct (String.eqb_spec k' k) as [->|_]; [done|]. by apply IH.
Qed.

Lemma dict_get_head {V} (d : dict V) (k : string) (v : V) :
  dict_get ((k, v) :: d) k = Ok v.
Proof. simpl. by rewrite String.eqb_refl. Qed.

Lemma dict_get_skip {V} (d : dict V) (k k' : string) (v : V) :
  k' ≠ k → dict_get ((k', v) :: d) k = dict_get d k.
Proof. intros Hne. simpl. by destruct (String.eqb_spec k' k). Qed.

Lemma dict_get_app_r {V} (d1 d2 : dict V) (k : string) :
  k ∉ dict_keys d1 → dict_get (d1 ++ d2) k = dict_get d2 k.
Proof.
  induction d1 as [|[k' v] d1 IH]; simpl; [done|].
  intros Hk. apply not_elem_of_cons in Hk as [Hne Hk].
  destruct (String.eqb_spec k' k) as [->|_]; [done|]. by apply IH.
Qed.

Section Table.
Variable unique : bool.

Lemma insert_all_not_refused (table rows : list Row) :
  refused unique table rows = false →
  insert_all unique table rows = table ++ rows.
Proof.
  revert table. induction rows as [|row rows IH]; intros table; simpl.
  - by rewrite app_nil_r.
  - destruct (unique && bool_decide (row ∈ table)); [done|].
    intros Hr. rewrite IH by done. by rewrite <- app_assoc.
Qed.

Lemma insert_all_app (table rows1 rows2 : list Row) :
  insert_all unique table (rows1 ++ rows2)
  = if refused unique table rows1 then insert_all unique table rows1
    else insert_all unique (table ++ rows1) rows2.
Proof.
  revert table. induction rows1 as [|row rows1 IH]; intros table; simpl.
  - by rewrite app_nil_r.
  - destruct (unique && bool_decide (row ∈ table)); [done|].
    rewrite IH. by rewrite <- app_assoc.
Qed.

Lemma refused_app (table rows1 rows2 : list Row) :
  refused unique table (rows1 ++ rows2)
  = if refused unique table rows1 then true
    else refused unique (table ++ rows1) rows2.
Proof.
  revert table. induction rows1 as [|row rows1 IH]; intros table; simpl.
  - by rewrite app_nil_r.
  - destruct (unique && bool_decide (row ∈ table)); [done|].
    rewrite IH. by rewrite <- app_assoc.
Qed.

Lemma insert_all_extends (table rows : list Row) :
  ∃ k, insert_all unique table rows = table ++ take k rows.
Proof.
  revert table. induction rows as [|row rows IH]; intros table; simpl.
  - exists 0. by rewrite app_nil_r.
  - destruct (unique && bool_decide (row ∈ table)).
    + exists 0. by rewrite app_nil_r.
    + destruct (IH (table ++ [row])) as [k Hk].
      exists (S k). rewrite Hk. by rewrite <- app_assoc.
Qed.

Lemma refused_NoDup (table rows : list Row) :
  NoDup (table ++ rows) → refused unique table rows = false.
Proof.
  revert table. induction rows as [|row rows IH]; intros table Hnd; simpl.
  - done.
  - assert (row ∉ table) as Hnot.
    { apply NoDup_app in Hnd as (_ & Hdisj & _).
      intros Hin. apply (Hdisj row Hin). by left. }
    rewrite bool_decide_eq_false_2 by done. rewrite andb_false_r.
    apply IH. by rewrite <- app_assoc.
Qed.

End Table.

Lemma insert_all_false (table rows : list Row) :
  insert_all false table rows = table ++ rows.
Proof.
  revert table. induction rows as [|row rows IH]; intros table; simpl.
  - by rewrite app_nil_r.
  - rewrite IH. by rewrite <- app_assoc.
Qed.

Lemma refused_false (table rows : list Row) : refused false table rows = false.
Proof.
  revert table. induction rows as [|row rows IH]; intros table; simpl; auto.
Qed.

Lemma insert_all_true_NoDup (table rows : list Row) :
  NoDup table → NoDup (insert_all true table rows).
Proof.
  revert table. induction rows as [|row rows IH]; intros table Hnd; simpl.
  - done.
  - case_bool_decide as Hin; [done|].
    apply IH. apply NoDup_app. split_and!; [done| |apply NoDup_singleton].
    intros x Hx Hx'. apply list_elem_of_singleton in Hx' as ->. done.
Qed.

(** A second pass over the same rows: refused at once under the
    constraint, appended again without it. *)
Lemma insert_all_true_again (table rows : list Row) :
  insert_all true (insert_all true table rows) rows
  = insert_all true table rows.
Proof.
  destruct rows as [|row rows]; [done|].
  destruct (decide (row ∈ table)) as [Hin|Hin]; simpl.
  - rewrite (bool_decide_eq_true_2 _ Hin). simpl.
    by rewrite (bool_decide_eq_true_2 _ Hin).
  - rewrite (bool_decide_eq_false_2 _ Hin).
    destruct (insert_all_extends true (table ++ [row]) rows) as [k ->].
    rewrite bool_decide_eq_true_2; [done|].
    rewrite !elem_of_app, list_elem_of_singleton. auto.
Qed.

Lemma refused_true_again (table rows : list Row) (r : Row) :
  refused true (insert_all true table (r :: rows)) (r :: rows) = true.
Proof.
  destruct (decide (r ∈ table)) as [Hin|Hin]; simpl.
  - rewrite (bool_decide_eq_true_2 _ Hin). simpl.
    by rewrite (bool_decide_eq_true_2 _ Hin).
  - rewrite (bool_decide_eq_false_2 _ Hin).
    destruct (insert_all_extends true (table ++ [r]) rows) as [k ->].
    rewrite bool_decide_eq_true_2; [done|].
    rewrite !elem_of_app, list_elem_of_singleton. auto.
Qed.

(** ** Statements and the table *)

Section Tracks.
Context `{Sdmx}.
Variable unique : bool.

Lemma quiet_lift {A} (r : Result A) : quiet (lift r) r.
Proof. by intros w. Qed.

Lemma quiet_client_dataflow (client : Remote) (id : option string) :
  quiet (client_dataflow client id) (remote_dataflow client id).
Proof. by intros w. Qed.

Lemma quiet_print (p : Printed) : quiet (print p) (Ok ()).
Proof. by intros w. Qed.

Lemma tracks_ret {A} (a : A) : tracks unique (mret a) [] (Ok ()).
Proof. by intros w. Qed.

Lemma tracks_quiet_ok {A B} (m : M A) (f : A → M B) a rows res :
  quiet m (Ok a) → tracks unique (f a) rows res →
  tracks unique (m ≫= f) rows res.
Proof.
  intros Hm Hf w. unfold mbind, M_bind.
  destruct (Hm w) as [Hr Hdb]. destruct (m w) as [r w']; simpl in *.
  subst r. rewrite <- Hdb. apply Hf.
Qed.

Lemma tracks_quiet_raise {A B} (m : M A) (f : A → M B) e :
  quiet m (Raise e) → tracks unique (m ≫= f) [] (Raise e).
Proof.
  intros Hm w. unfold mbind, M_bind.
  destruct (Hm w) as [Hr Hdb]. destruct (m w) as [r w']; simpl in *.
  by subst r.
Qed.

Lemma tracks_bind {A B} (m : M A) (f : A → M B) rows rows' res :
  tracks unique m rows (Ok ()) → (∀ a, tracks unique (f a) rows' res) →
  tracks unique (m ≫= f) (rows ++ rows') res.
Proof.
  intros Hm Hf w. unfold mbind, M_bind.
  destruct (Hm w) as [Hdb Hr]. rewrite insert_all_app, refused_app.
  destruct (m w) as [r w']; simpl in *.
  destruct (refused unique (db w) rows) eqn:Href.
  - destruct r; [done|]. simpl in *. by inversion Hr.
  - destruct r as [a|]; [|done].
    rewrite insert_all_not_refused in Hdb by done. rewrite <- Hdb. apply Hf.
Qed.

Lemma tracks_bind_raise {A B} (m : M A) (f : A → M B) rows e :
  tracks unique m rows (Raise e) → tracks unique (m ≫= f) rows (Raise e).
Proof.
  intros Hm w. unfold mbind, M_bind.
  destruct (Hm w) as [Hdb Hr]. destruct (m w) as [r w']; simpl in *.
  destruct r as [a|e']; [by destruct (refused unique (db w) rows)|done].
Qed.

Lemma tracks_execute_insert (row : Row) :
  tracks unique (countries.execute_insert unique row) [row] (Ok ()).
Proof.
  intros w. unfold countries.execute_insert. simpl.
  by destruct (unique && bool_decide (row ∈ db w)).
Qed.

Lemma tracks_for_each {A} (body : A → M ()) (f : A → list Row * Result ())
    (l : list A) :
  (∀ x, tracks unique (body x) (f x).1 (f x).2) →
  tracks unique (for_each l body) (walk f l).1 (walk f l).2.
Proof.
  intros Hbody. induction l as [|x l IH]; simpl.
  - apply tracks_ret.
  - specialize (Hbody x). destruct (f x) as [rows [[]|e]]; simpl in *.
    + destruct (walk f l) as [rows' r]. simpl in *.
      apply tracks_bind; [done|]. by intros _.
    + by apply tracks_bind_raise.
Qed.

Lemma tracks_constraint_body dataflow_id constraints constraint_id :
  tracks unique (countries.constraint_body unique dataflow_id constraints
                   constraint_id)
    (constraint_rows dataflow_id constraints constraint_id).1
    (constraint_rows dataflow_id constraints constraint_id).2.
Proof.
  unfold countries.constraint_body, constraint_rows, entry_rows.
  destruct (dict_get constraints constraint_id) as [c|e];
    [|apply tracks_quiet_raise, quiet_lift].
  eapply tracks_quiet_ok; [apply quiet_lift|].
  destruct (first (data_content_region c)) as [cr|e];
    [|apply tracks_quiet_raise, quiet_lift].
  eapply tracks_quiet_ok; [apply quiet_lift|].
  destruct (dict_get (member cr) "REF_AREA") as [ref_area|e];
    [|apply tracks_quiet_raise, quiet_lift].
  eapply tracks_quiet_ok; [apply quiet_lift|]. simpl.
  rewrite <- (app_nil_r (map _ _)).
  apply tracks_bind; [|intros _; intros w; by simpl].
  generalize (values ref_area). intros mvs.
  induction mvs as [|mv mvs IH]; simpl; [apply tracks_ret|].
  apply (tracks_bind _ _ [_]); [apply tracks_execute_insert|by intros _].
Qed.

Lemma tracks_dataflow_body (ilostat : Remote) ids n dataflow_id :
  tracks unique (countries.dataflow_body unique ilostat ids n dataflow_id)
    (dataflow_rows ilostat dataflow_id).1
    (dataflow_rows ilostat dataflow_id).2.
Proof.
  unfold countries.dataflow_body, dataflow_rows.
  destruct (remote_dataflow ilostat (Some dataflow_id)) as [msg|e] eqn:Hmsg.
  - eapply tracks_quiet_ok.
    { rewrite <- Hmsg. apply quiet_client_dataflow. }
    pose proof (tracks_for_each
      (countries.constraint_body unique dataflow_id (constraint msg))
      (constraint_rows dataflow_id (constraint msg))
      (dict_keys (constraint msg))
      (tracks_constraint_body dataflow_id (constraint msg))) as Hloop.
    destruct (walk _ _) as [rows [[]|e]]; simpl in *.
    + rewrite <- (app_nil_r rows). apply tracks_bind; [done|]. intros _.
      eapply tracks_quiet_ok; [apply quiet_print|].
      eapply tracks_quiet_ok; [apply quiet_print|]. apply tracks_ret.
    + by apply tracks_bind_raise.
  - apply tracks_quiet_raise. rewrite <- Hmsg. apply quiet_client_dataflow.
Qed.

Lemma tracks_dataflow_loop (ilostat : Remote) ids todo n :
  tracks unique (countries.dataflow_loop unique ilostat ids todo n)
    (walk (dataflow_rows ilostat) todo).1
    (walk (dataflow_rows ilostat) todo).2.
Proof.
  revert n. induction todo as [|id todo IH]; intros n; simpl.
  - apply tracks_ret.
  - pose proof (tracks_dataflow_body ilostat ids n id) as Hbody.
    destruct (dataflow_rows ilostat id) as [rows [[]|e]]; simpl in *.
    + destruct (walk (dataflow_rows ilostat) todo) as [rows' r]. simpl in *.
      apply tracks_bind; [done|]. intros n'. apply IH.
    + by apply tracks_bind_raise.
Qed.

Lemma tracks_main (ilostat : Remote) :
  tracks unique (countries.main unique ilostat)
    (main_rows ilostat).1 (main_rows ilostat).2.
Proof.
  unfold countries.main, main_rows.
  destruct (remote_dataflow ilostat None) as [msg|e] eqn:Hmsg.
  - eapply tracks_quiet_ok.
    { rewrite <- Hmsg. apply quiet_client_dataflow. }
    apply tracks_dataflow_loop.
  - apply tracks_quiet_raise. rewrite <- Hmsg. apply quiet_client_dataflow.
Qed.

End Tracks.

(** ** The rows of a crawl *)

Section Rows.
Context `{Sdmx}.

Lemma dict_get_elem {V} (d : dict V) (k : string) (v : V) :
  NoDup (dict_keys d) → (k, v) ∈ d → dict_get d k = Ok v.
Proof.
  induction d as [|[k' v'] d IH]; simpl; intros Hnd Hin.
  - by apply elem_of_nil in Hin.
  - apply NoDup_cons in Hnd as [Hk' Hnd].
    apply elem_of_cons in Hin as [Heq|Hin].
    + inversion Heq; subst. by rewrite String.eqb_refl.
    + destruct (String.eqb_spec k' k) as [->|_]; [|by apply IH].
      exfalso. apply Hk'. apply list_elem_of_fmap. by exists (k, v).
Qed.

Lemma walk_map {A B} (g : A → B) (f : B → list Row * Result ()) (l : list A) :
  walk f (map g l) = walk (λ x, f (g x)) l.
Proof.
  induction l as [|x l IH]; simpl; [done|]. by rewrite IH.
Qed.

Lemma walk_ext_in {A} (f g : A → list Row * Result ()) (l : list A) :
  (∀ x, x ∈ l → f x = g x) → walk f l = walk g l.
Proof.
  induction l as [|x l IH]; simpl; intros Hfg; [done|].
  rewrite (Hfg x) by left. rewrite IH; [done|].
  intros y Hy. apply Hfg. by right.
Qed.

Lemma walk_app {A} (f : A → list Row * Result ()) (l1 l2 : list A) :
  walk f (l1 ++ l2)
  = match walk f l1 with
    | (rows, Ok _) => let '(rows', r) := walk f l2 in (rows ++ rows', r)
    | (rows, Raise e) => (rows, Raise e)
    end.
Proof.
  induction l1 as [|x l1 IH]; simpl.
  - by destruct (walk f l2).
  - destruct (f x) as [rows [[]|e]]; [|done]. rewrite IH.
    destruct (walk f l1) as [rows1 [[]|e]]; [|done].
    destruct (walk f l2) as [rows2 r]. by rewrite app_assoc.
Qed.

Lemma walk_all_ok {A} (f : A → list Row * Result ()) (g : A → list Row)
    (l : list A) :
  (∀ x, x ∈ l → f x = (g x, Ok ())) → walk f l = (flat_map g l, Ok ()).
Proof.
  induction l as [|x l IH]; simpl; intros Hf; [done|].
  rewrite (Hf x) by left. rewrite IH; [done|].
  intros y Hy. apply Hf. by right.
Qed.

Lemma walk_rows_from {A} (f : A → list Row * Result ()) (l : list A)
    (P : A → Row → Prop) :
  (∀ x row, row ∈ (f x).1 → P x row) →
  ∀ row, row ∈ (walk f l).1 → ∃ x, x ∈ l ∧ P x row.
Proof.
  intros Hf. induction l as [|x l IH]; simpl; intros row Hrow.
  - by apply elem_of_nil in Hrow.
  - specialize (Hf x). destruct (f x) as [rows [[]|e]]; simpl in *.
    + destruct (walk f l) as [rows' r]. simpl in *.
      apply elem_of_app in Hrow as [Hrow|Hrow].
      * exists x. split; [left|auto].
      * destruct (IH row Hrow) as (y & Hy & HP). exists y. split; [by right|done].
    + exists x. split; [left|auto].
Qed.

Lemma entry_rows_exposed (dataflow_id : string) (c : ContentConstraint) :
  is_Some (ref_area_codes c) →
  entry_rows dataflow_id c = (constraint_pairs dataflow_id c, Ok ()).
Proof.
  unfold entry_rows, constraint_pairs, ref_area_codes. intros [codes Hc].
  destruct (data_content_region c) as [|cr crs]; [done|]. simpl.
  destruct (dict_get (member cr) "REF_AREA") as [ref_area|e]; [|done].
  simpl. by rewrite map_map.
Qed.

Lemma entry_rows_dataflow (dataflow_id : string) (c : ContentConstraint) row :
  row ∈ (entry_rows dataflow_id c).1 → row.2 = dataflow_id.
Proof.
  unfold entry_rows.
  destruct (first (data_content_region c)) as [cr|e]; simpl;
    [|by intros ?%elem_of_nil].
  destruct (dict_get (member cr) "REF_AREA") as [ref_area|e]; simpl;
    [|by intros ?%elem_of_nil].
  intros (mv & -> & _)%list_elem_of_fmap. done.
Qed.

(** Walking the ids of a dict and looking each up is walking its items. *)
Lemma walk_constraints (dataflow_id : string) (d : dict ContentConstraint) :
  NoDup (dict_keys d) →
  walk (constraint_rows dataflow_id d) (dict_keys d)
  = walk (λ kc, entry_rows dataflow_id kc.2) d.
Proof.
  intros Hnd. unfold dict_keys. rewrite walk_map. apply walk_ext_in.
  intros [k c] Hin. unfold constraint_rows. simpl.
  by rewrite (dict_get_elem d k c).
Qed.

Lemma dataflow_rows_crawlable (ilostat : Remote) (dataflow_id : string) :
  crawlable ilostat dataflow_id = true →
  dataflow_rows ilostat dataflow_id = (region_pairs ilostat dataflow_id, Ok ()).
Proof.
  unfold crawlable, dataflow_rows, region_pairs.
  destruct (remote_dataflow ilostat (Some dataflow_id)) as [msg|e]; [|done].
  intros [Hnd Hall]%andb_true_iff. apply bool_decide_eq_true in Hnd.
  rewrite walk_constraints by done. apply walk_all_ok.
  intros [k c] Hin. simpl. apply entry_rows_exposed.
  rewrite forallb_forall in Hall.
  apply list_elem_of_In in Hin. specialize (Hall _ Hin).
  by apply bool_decide_eq_true in Hall.
Qed.

Lemma dataflow_rows_dataflow (ilostat : Remote) (dataflow_id : string) row :
  row ∈ (dataflow_rows ilostat dataflow_id).1 → row.2 = dataflow_id.
Proof.
  unfold dataflow_rows.
  destruct (remote_dataflow ilostat (Some dataflow_id)) as [msg|e]; simpl;
    [|by intros ?%elem_of_nil].
  intros Hrow.
  destruct (walk_rows_from (constraint_rows dataflow_id (constraint msg))
              (dict_keys (constraint msg)) (λ _ r, r.2 = dataflow_id))
    with (row := row) as (x & _ & Hx); [|done|done].
  intros x r. unfold constraint_rows.
  destruct (dict_get (constraint msg) x) as [c|e]; simpl;
    [apply entry_rows_dataflow|by intros ?%elem_of_nil].
Qed.

Lemma walk_crawlable (ilostat : Remote) (ids : list string) :
  forallb (crawlable ilostat) ids = true →
  walk (dataflow_rows ilostat) ids
  = (flat_map (region_pairs ilostat) ids, Ok ()).
Proof.
  intros Hall. apply walk_all_ok. intros id Hin.
  apply dataflow_rows_crawlable. rewrite forallb_forall in Hall.
  apply Hall. by apply list_elem_of_In.
Qed.

Lemma region_pairs_dataflow (ilostat : Remote) (dataflow_id : string) row :
  row ∈ region_pairs ilostat dataflow_id → row.2 = dataflow_id.
Proof.
  unfold region_pairs.
  destruct (remote_dataflow ilostat (Some dataflow_id)) as [msg|e];
    [|by intros ?%elem_of_nil].
  rewrite list_elem_of_In, in_flat_map. intros (kc & _ & Hin).
  apply list_elem_of_In in Hin. unfold constraint_pairs in Hin.
  by apply list_elem_of_fmap in Hin as (code & -> & _).
Qed.

End Rows.

(** ** The crawl (src/countries.py) *)

Section Crawl.
Context `{Sdmx}.
Variable unique : bool.
Variable ilostat : Remote.

Lemma main_db (w : World) :
  db (countries.main unique ilostat w).2
  = insert_all unique (db w) (main_rows ilostat).1.
Proof. apply tracks_main. Qed.

Lemma main_outcome (w : World) :
  (countries.main unique ilostat w).1
  = if refused unique (db w) (main_rows ilostat).1 then Raise IntegrityError
    else (main_rows ilostat).2.
Proof.
  destruct (tracks_main unique ilostat w) as [_ Hres]. rewrite <- Hres.
  by destruct (countries.main unique ilostat w).1 as [[]|e].
Qed.

Lemma filter_none {A} (P : A → Prop) `{∀ x, Decision (P x)} (l : list A) :
  (∀ x, x ∈ l → ¬ P x) → filter P l = [].
Proof.
  induction l as [|x l IH]; intros Hl; [done|].
  rewrite filter_cons_False by (apply Hl; left).
  apply IH. intros y Hy. apply Hl. by right.
Qed.

Lemma filter_all {A} (P : A → Prop) `{∀ x, Decision (P x)} (l : list A) :
  (∀ x, x ∈ l → P x) → filter P l = l.
Proof.
  induction l as [|x l IH]; intros Hl; [done|].
  rewrite filter_cons_True by (apply Hl; left).
  f_equal. apply IH. intros y Hy. apply Hl. by right.
Qed.

Lemma region_pairs_of (ids : list string) row :
  row ∈ flat_map (region_pairs ilostat) ids → row.2 ∈ ids.
Proof.
  intros Hin. apply list_elem_of_In, in_flat_map in Hin as (id & Hid & Hrow).
  apply list_elem_of_In in Hid, Hrow.
  by rewrite (region_pairs_dataflow _ _ _ Hrow).
Qed.

(** C8 (as the code has it). When the crawl gets to a dataflow each of
    whose constraints has a REF_AREA member set in its first content
    region, the rows it adds to the table for that dataflow are exactly
    one pair (code, dataflow id) per region code of those member sets, in
    order. *)
Theorem crawl_emits_one_pair_per_region_code (w : World)
    (listing msg : StructureMessage) (pre post : list string)
    (dataflow_id : string) :
  remote_dataflow ilostat None = Ok listing →
  dict_keys (dataflow listing) = pre ++ dataflow_id :: post →
  NoDup (dict_keys (dataflow listing)) →
  forallb (crawlable ilostat) pre = true →
  remote_dataflow ilostat (Some dataflow_id) = Ok msg →
  crawlable ilostat dataflow_id = true →
  refused unique (db w)
    (flat_map (region_pairs ilostat) pre ++ region_pairs ilostat dataflow_id)
    = false →
  ∃ added,
    db (countries.main unique ilostat w).2 = db w ++ added
    ∧ filter (λ row, row.2 = dataflow_id) added
      = flat_map (λ kc, map (λ code, (code, dataflow_id))
                          (default [] (ref_area_codes kc.2)))
          (constraint msg).
Proof.
  intros Hlist Hids Hnd Hpre Hmsg Hid Href.
  assert (region_pairs ilostat dataflow_id
          = flat_map (λ kc, map (λ code, (code, dataflow_id))
                              (default [] (ref_area_codes kc.2)))
              (constraint msg)) as Hpairs.
  { unfold region_pairs. by rewrite Hmsg. }
  rewrite <- Hpairs. clear Hmsg Hpairs.
  rewrite main_db. unfold main_rows. rewrite Hlist, Hids, walk_app.
  rewrite (walk_crawlable _ _ Hpre). simpl.
  rewrite (dataflow_rows_crawlable _ _ Hid).
  pose proof (walk_rows_from (dataflow_rows ilostat) post
    (λ id row, row.2 = id) (dataflow_rows_dataflow ilostat)) as Hpost.
  destruct (walk (dataflow_rows ilostat) post) as [rest r]. simpl in *.
  rewrite (app_assoc _ _ rest), insert_all_app, Href.
  destruct (insert_all_extends unique
    (db w ++ flat_map (region_pairs ilostat) pre
      ++ region_pairs ilostat dataflow_id) rest) as [k ->].
  rewrite Hids in Hnd. apply NoDup_app in Hnd as (_ & Hdisj & Hnd).
  apply NoDup_cons in Hnd as [Hnotpost _].
  exists (flat_map (region_pairs ilostat) pre
          ++ region_pairs ilostat dataflow_id ++ take k rest).
  split; [by rewrite <- !app_assoc|].
  rewrite !filter_app, filter_none, filter_all, filter_none.
  - by rewrite app_nil_r.
  - intros row Hrow Heq.
    apply list_elem_of_lookup in Hrow as [i Hi].
    apply lookup_take_Some in Hi as [Hi _].
    apply list_elem_of_lookup_2 in Hi.
    destruct (Hpost row Hi) as (id & Hin & Hrowid). congruence.
  - apply region_pairs_dataflow.
  - intros row Hrow Heq. apply region_pairs_of in Hrow.
    apply (Hdisj _ Hrow). rewrite Heq. left.
Qed.

(** C3 (as the code has it). When fetching the constraints of one dataflow
    fails, the crawl ends there with that error: the table has gained the
    pairs of the dataflows before it, and nothing of any later dataflow. *)
Theorem crawl_aborts_at_failed_fetch (w : World)
    (listing : StructureMessage) (pre post : list string)
    (failing : string) (e : exn) :
  remote_dataflow ilostat None = Ok listing →
  dict_keys (dataflow listing) = pre ++ failing :: post →
  forallb (crawlable ilostat) pre = true →
  remote_dataflow ilostat (Some failing) = Raise e →
  refused unique (db w) (flat_map (region_pairs ilostat) pre) = false →
  (countries.main unique ilostat w).1 = Raise e
  ∧ db (countries.main unique ilostat w).2
    = db w ++ flat_map (region_pairs ilostat) pre.
Proof.
  intros Hlist Hids Hpre Hfail Href.
  assert (main_rows ilostat
          = (flat_map (region_pairs ilostat) pre, Raise e)) as Hrows.
  { unfold main_rows. rewrite Hlist, Hids, walk_app.
    rewrite (walk_crawlable _ _ Hpre). simpl.
    unfold dataflow_rows at 1. rewrite Hfail. by rewrite app_nil_r. }
  rewrite main_outcome, main_db, Hrows. simpl. rewrite Href.
  split; [done|]. by apply insert_all_not_refused.
Qed.

(** C4 (as the code has it). At a constraint whose first content region has
    no REF_AREA member set the crawl adds no row for that constraint and
    ends with the key error of the lookup: the table has gained the pairs of
    the dataflows and constraints before it, and nothing after. *)
Theorem crawl_aborts_without_ref_area (w : World)
    (listing msg : StructureMessage) (pre post : list string)
    (dataflow_id : string) (before after : dict ContentConstraint)
    (constraint_id : string) (c : ContentConstraint) (cr : CubeRegion) :
  remote_dataflow ilostat None = Ok listing →
  dict_keys (dataflow listing) = pre ++ dataflow_id :: post →
  forallb (crawlable ilostat) pre = true →
  remote_dataflow ilostat (Some dataflow_id) = Ok msg →
  constraint msg = before ++ (constraint_id, c) :: after →
  NoDup (dict_keys (constraint msg)) →
  forallb (λ kc, bool_decide (is_Some (ref_area_codes kc.2))) before = true →
  first (data_content_region c) = Ok cr →
  "REF_AREA" ∉ dict_keys (member cr) →
  refused unique (db w)
    (flat_map (region_pairs ilostat) pre
     ++ flat_map (λ kc, constraint_pairs dataflow_id kc.2) before) = false →
  (countries.main unique ilostat w).1 = Raise (KeyError "REF_AREA")
  ∧ db (countries.main unique ilostat w).2
    = db w ++ flat_map (region_pairs ilostat) pre
           ++ flat_map (λ kc, constraint_pairs dataflow_id kc.2) before.
Proof.
  intros Hlist Hids Hpre Hmsg Hcs Hnd Hbefore Hcr Hno Href.
  assert (dataflow_rows ilostat dataflow_id
          = (flat_map (λ kc, constraint_pairs dataflow_id kc.2) before,
             Raise (KeyError "REF_AREA"))) as Hdf.
  { unfold dataflow_rows. rewrite Hmsg, walk_constraints by done.
    rewrite Hcs, walk_app.
    rewrite (walk_all_ok _ (λ kc, constraint_pairs dataflow_id kc.2)).
    - simpl. unfold entry_rows at 1. rewrite Hcr.
      rewrite dict_get_absent by done. by rewrite app_nil_r.
    - intros [k c'] Hin. simpl. apply entry_rows_exposed.
      rewrite forallb_forall in Hbefore. apply list_elem_of_In in Hin.
      specialize (Hbefore _ Hin). by apply bool_decide_eq_true in Hbefore. }
  assert (main_rows ilostat
          = (flat_map (region_pairs ilostat) pre
             ++ flat_map (λ kc, constraint_pairs dataflow_id kc.2) before,
             Raise (KeyError "REF_AREA"))) as Hrows.
  { unfold main_rows. rewrite Hlist, Hids, walk_app.
    rewrite (walk_crawlable _ _ Hpre). simpl. by rewrite Hdf. }
  rewrite main_outcome, main_db, Hrows. simpl. rewrite Href.
  split; [done|]. by rewrite insert_all_not_refused.
Qed.

End Crawl.

(** C2 (as the code has it). Running the crawl a second time against the
    same service leaves the table with the same set of distinct pairs as the
    first run. Without a uniqueness constraint the second run appends every
    row of the first run again; with one, the table is left as the first run
    left it, free of duplicates if it was before, and the second run ends
    with the integrity error of its first insertion whenever the first run
    had added a row. *)
Theorem crawl_rerun_keeps_the_pairs `{Sdmx} (unique : bool)
    (ilostat : Remote) (w : World) :
  let w1 := (countries.main unique ilostat w).2 in
  let rerun := countries.main unique ilostat w1 in
  (∀ row, row ∈ db rerun.2 ↔ row ∈ db w1)
  ∧ db rerun.2
    = (if unique then db w1 else db w1 ++ (main_rows ilostat).1)
  ∧ (unique = true → NoDup (db w) → NoDup (db rerun.2))
  ∧ (unique = true → db w1 ≠ db w → rerun.1 = Raise IntegrityError).
Proof.
  intros w1 rerun. subst rerun w1.
  rewrite main_outcome, !main_db.
  destruct (main_rows ilostat) as [rows res]. simpl.
  destruct unique.
  - rewrite insert_all_true_again. split_and!; [done|done| |].
    + intros _ Hnd. by apply insert_all_true_NoDup.
    + intros _ Hne. destruct rows as [|row rows]; [done|].
      by rewrite refused_true_again.
  - rewrite !insert_all_false. split_and!; [|done|done|done].
    intros row. rewrite !elem_of_app. tauto.
Qed.

(** ** The query class (src/ilostat/_query.py) *)

Section Query.
Context `{Sdmx}.

Lemma undeclared_elem (dsd : DSD) (key : gmap string (option string))
    (k : string) :
  k ∈ undeclared dsd key ↔ is_Some (key !! k) ∧ k ∉ dsd_keys dsd.
Proof.
  unfold undeclared. rewrite list_elem_of_filter, list_elem_of_fmap.
  split.
  - intros [Hnot ([k' v] & -> & Hin)]. split; [|done].
    apply elem_of_map_to_list in Hin. by exists v.
  - intros [[v Hv] Hnot]. split; [done|]. exists (k, v). split; [done|].
    by apply elem_of_map_to_list.
Qed.

Lemma undeclared_nil (dsd : DSD) (key : gmap string (option string)) :
  undeclared dsd key = [] ↔ ∀ k, is_Some (key !! k) → k ∈ dsd_keys dsd.
Proof.
  split.
  - intros Hnil k Hk. destruct (decide (k ∈ dsd_keys dsd)) as [|Hnot]; [done|].
    assert (k ∈ undeclared dsd key) as Hin by by apply undeclared_elem.
    rewrite Hnil in Hin. by apply elem_of_nil in Hin.
  - intros Hall. destruct (undeclared dsd key) as [|k names] eqn:Hun; [done|].
    assert (k ∈ undeclared dsd key) as Hin by (rewrite Hun; left).
    apply undeclared_elem in Hin as [Hk Hnot]. by destruct Hnot; apply Hall.
Qed.

Lemma unset_nil (dsd : DSD) (key : gmap string (option string)) :
  unset dsd key = [] ↔ ∀ k, k ∈ dsd_keys dsd → key !! k ≠ Some None.
Proof.
  unfold unset. split.
  - intros Hnil k Hk Hnone.
    assert (k ∈ filter (λ k, key !! k = Some None) (dsd_keys dsd)) as Hin
      by by apply list_elem_of_filter.
    rewrite Hnil in Hin. by apply elem_of_nil in Hin.
  - intros Hall.
    destruct (filter _ _) as [|k names] eqn:Hun; [done|].
    assert (k ∈ filter (λ k, key !! k = Some None) (dsd_keys dsd)) as Hin
      by (rewrite Hun; left).
    apply list_elem_of_filter in Hin as [Hnone Hk]. by destruct (Hall k Hk).
Qed.

(** The constraint is made exactly when the structure declares every key
    and holds no declared key at [None]. *)
Lemma make_constraint_Ok (dsd : DSD) (key : gmap string (option string)) :
  make_constraint dsd key = Ok ()
  ↔ (∀ k, k ∈ dsd_keys dsd → key !! k ≠ Some None)
    ∧ (∀ k, is_Some (key !! k) → k ∈ dsd_keys dsd).
Proof.
  rewrite <- unset_nil, <- undeclared_nil. unfold make_constraint.
  destruct (unset dsd key); [|by split; [|intros []]].
  destruct (undeclared dsd key); [done|]. by split; [|intros []].
Qed.

Lemma make_constraint_unit (dsd : DSD) (key : gmap string (option string))
    (u : ()) :
  make_constraint dsd key = Ok u → make_constraint dsd key = Ok ().
Proof. by destruct u. Qed.

Lemma first_collision_None (levels present : list string) :
  first_collision levels present = None
  ↔ NoDup levels ∧ ∀ level, level ∈ levels → level ∉ present.
Proof.
  revert present. induction levels as [|level levels IH]; intros present;
    simpl.
  - split; [|done]. intros _. split; [constructor|].
    by intros level ?%elem_of_nil.
  - case_bool_decide as Hin.
    + split; [done|]. intros [_ Hall]. by destruct (Hall level); [left|].
    + rewrite IH, NoDup_cons. split.
      * intros [Hnd Hall]. split_and!.
        -- intros Hl. by destruct (Hall level Hl); left.
        -- done.
        -- intros l [->|Hl]%elem_of_cons; [done|].
           intros Hp. destruct (Hall l Hl). by right.
      * intros [[Hnot Hnd] Hall]. split; [done|].
        intros l Hl [->|Hp]%elem_of_cons; [done|].
        by destruct (Hall l); [right|].
Qed.

Lemma NoDup_reverse {A} (l : list A) : NoDup (reverse l) ↔ NoDup l.
Proof. by rewrite reverse_Permutation. Qed.

Lemma reset_index_Ok (s : Series) (name : string) (df : DataFrame) :
  reset_index s name = Ok df ↔
  NoDup (index_names s) ∧ (name ∉ index_names s)
  ∧ df = {| columns := index_names s ++ [name];
            rows := map (λ e, e.1 ++ [e.2]) (entries s) |}.
Proof.
  unfold reset_index.
  destruct (first_collision (reverse (index_names s)) [name]) as [level|]
    eqn:Hcol.
  - split; [done|]. intros (Hnd & Hnot & _).
    assert (first_collision (reverse (index_names s)) [name] = None) as Hn.
    { apply first_collision_None. split; [by apply NoDup_reverse|].
      intros level' Hl ->%list_elem_of_singleton.
      apply Hnot. by apply elem_of_reverse. }
    congruence.
  - apply first_collision_None in Hcol as [Hnd Hall].
    apply (proj1 (NoDup_reverse _)) in Hnd.
    split.
    + intros [= <-]. split_and!; [done| |done].
      intros Hin. apply (Hall name); [by apply elem_of_reverse|left].
    + by intros (_ & _ & ->).
Qed.

(** [data] on an object that holds a structure: the key is checked against
    it, then the request is made and the first group flattened. *)
Lemma data_unfold (self : ILOStatQuery.t) (dsd : DSD) (w : World) :
  ILOStatQuery._dsd self = Some dsd →
  ILOStatQuery.data self w
  = match make_constraint dsd (ILOStatQuery.dimensions self) with
    | Ok _ =>
        (match remote_data (ILOStatQuery._ilostat self)
                 (ILOStatQuery.dataflow self) (Some dsd)
                 (ILOStatQuery.dimensions self) (ILOStatQuery.params self) with
         | Raise e => Raise e
         | Ok data_msg =>
             match data data_msg with
             | [] => Raise IndexError
             | group :: _ =>
                 match to_pandas group with
                 | Raise e => Raise e
                 | Ok series => reset_index series "value"
                 end
             end
         end,
         {| calls := calls w ++ [CallData (ILOStatQuery.dataflow self)
                                   (Some dsd)
                                   (ILOStatQuery.dimensions self)
                                   (ILOStatQuery.params self)];
            db := db w; stdout := stdout w |})
    | Raise e => (Raise e, w)
    end.
Proof.
  intros Hdsd.
  unfold ILOStatQuery.data, client_data, request_data. rewrite Hdsd.
  destruct (make_constraint dsd (ILOStatQuery.dimensions self)) as [[]|e];
    [|done].
  unfold mbind, M_bind, lift. simpl.
  destruct (remote_data _ _ _ _ _) as [data_msg|e]; [|done].
  destruct (data data_msg) as [|group others]; [done|]. simpl.
  destruct (to_pandas group) as [series|e]; [|done].
  by destruct (reset_index series "value").
Qed.

(** A frame that [data] returns comes from the first group of an answer to
    a request whose key the structure declares. *)
Lemma data_Ok_inv (self : ILOStatQuery.t) (w : World) (df : DataFrame) :
  (ILOStatQuery.data self w).1 = Ok df →
  ∃ dsd data_msg group others series,
    make_constraint dsd (ILOStatQuery.dimensions self) = Ok ()
    ∧ remote_data (ILOStatQuery._ilostat self) (ILOStatQuery.dataflow self)
        (Some dsd) (ILOStatQuery.dimensions self) (ILOStatQuery.params self)
      = Ok data_msg
    ∧ data data_msg = group :: others
    ∧ to_pandas group = Ok series
    ∧ reset_index series "value" = Ok df.
Proof.
  assert (∀ dsd w',
    (mbind (M := M) (λ data_msg : DataMessage,
       data ← lift (first (sdmx.data data_msg));
       series_data ← lift (to_pandas data);
       df ← lift (reset_index series_data "value");
       mret df)
      (request_data (ILOStatQuery._ilostat self) (ILOStatQuery.dataflow self)
         dsd (ILOStatQuery.dimensions self) (ILOStatQuery.params self))
      w').1 = Ok df →
    ∃ data_msg group others series,
      make_constraint dsd (ILOStatQuery.dimensions self) = Ok ()
      ∧ remote_data (ILOStatQuery._ilostat self) (ILOStatQuery.dataflow self)
          (Some dsd) (ILOStatQuery.dimensions self)
          (ILOStatQuery.params self) = Ok data_msg
      ∧ data data_msg = group :: others
      ∧ to_pandas group = Ok series
      ∧ reset_index series "value" = Ok df) as Hreq.
  { intros dsd w'. unfold request_data, mbind, M_bind, lift.
    destruct (make_constraint dsd (ILOStatQuery.dimensions self)) as [[]|e];
      [|done]. simpl.
    destruct (remote_data _ _ _ _ _) as [data_msg|e]; [|done].
    destruct (data data_msg) as [|group others] eqn:Hdata; [done|]. simpl.
    destruct (to_pandas group) as [series|e] eqn:Hseries; [|done].
    destruct (reset_index series "value") as [df'|e] eqn:Hframe; [|done].
    simpl. intros [= <-]. by exists data_msg, group, others, series. }
  unfold ILOStatQuery.data, client_data.
  destruct (ILOStatQuery._dsd self) as [dsd|].
  - intros Hdf. destruct (Hreq dsd w Hdf) as (? & ? & ? & ? & ?).
    by exists dsd; eauto.
  - unfold mbind at 1, M_bind at 1. unfold mbind at 1, M_bind at 1.
    unfold client_dataflow, lift. simpl.
    destruct (remote_dataflow _ _) as [msg|e]; [|done]. simpl.
    unfold mbind at 1, M_bind at 1. simpl.
    destruct (dict_get (dataflow msg) (ILOStatQuery.dataflow self))
      as [flow|e]; [|done]. simpl.
    intros Hdf. destruct (Hreq (structure flow) _ Hdf) as (? & ? & ? & ? & ?).
    by exists (structure flow); eauto.
Qed.

Lemma init_unfold (ilo : Remote) (dataflow_id : string)
    (dimensions params : gmap string (option string)) (w : World) :
  ILOStatQuery.__init__ ilo dataflow_id dimensions params w
  = (match remote_dataflow ilo (Some dataflow_id) with
     | Raise e => Raise e
     | Ok df_msg =>
         match dict_get (dataflow df_msg) dataflow_id with
         | Raise e => Raise e
         | Ok df_flow =>
             Ok {| ILOStatQuery.dataflow := dataflow_id;
                   ILOStatQuery.dimensions := dimensions;
                   ILOStatQuery.params := params;
                   ILOStatQuery._ilostat := ilo;
                   ILOStatQuery._dsd := Some (structure df_flow) |}
         end
     end,
     {| calls := calls w ++ [CallDataflow (Some dataflow_id)];
        db := db w; stdout := stdout w |}).
Proof.
  unfold ILOStatQuery.__init__, ILOStatQuery._set_dsd, mbind, M_bind,
    client_dataflow, lift. simpl.
  destruct (remote_dataflow _ _) as [df_msg|e]; [|done].
  by destruct (dict_get _ _).
Qed.

(** C1. When the selection of a query has a key that the structure of its
    dataflow does not declare, [data] fails in the client's key check and
    leaves the world as it finds it: no remote data call is made, the only
    round trip being the one that fetched the structure.  The error is
    the ValueError of the key check, which names that key, unless the
    selection holds [None] for a dimension of the structure: then the
    check has failed before, with a TypeError. *)
Theorem data_rejects_undeclared_key (ilo : Remote) (dataflow_id : string)
    (dimensions params : gmap string (option string)) (w w1 : World)
    (self : ILOStatQuery.t) (dsd : DSD) (k : string) :
  ILOStatQuery.__init__ ilo dataflow_id dimensions params w = (Ok self, w1) →
  ILOStatQuery._dsd self = Some dsd →
  is_Some (dimensions !! k) →
  k ∉ dsd_keys dsd →
  ∃ e,
    ILOStatQuery.data self w1 = (Raise e, w1)
    ∧ calls w1 = calls w ++ [CallDataflow (Some dataflow_id)]
    ∧ (e = TypeError ∨ ∃ names, e = ValueError names ∧ k ∈ names)
    ∧ ((∀ d, d ∈ dsd_keys dsd → dimensions !! d ≠ Some None) →
       ∃ names, e = ValueError names ∧ k ∈ names).
Proof.
  rewrite init_unfold. intros Hinit Hdsd Hk Hnot.
  assert (ILOStatQuery.dimensions self = dimensions) as Hdims.
  { destruct (remote_dataflow ilo (Some dataflow_id)) as [df_msg|e]; [|done].
    destruct (dict_get (dataflow df_msg) dataflow_id) as [df_flow|e]; [|done].
    by inversion Hinit. }
  assert (calls w1 = calls w ++ [CallDataflow (Some dataflow_id)]) as Hcalls.
  { by inversion Hinit. }
  rewrite (data_unfold self dsd w1 Hdsd), Hdims.
  assert (k ∈ undeclared dsd dimensions) as Hin by by apply undeclared_elem.
  unfold make_constraint.
  destruct (unset dsd dimensions) as [|d ds] eqn:Hunset.
  - destruct (undeclared dsd dimensions) as [|k' names];
      [by apply elem_of_nil in Hin|].
    exists (ValueError (k' :: names)). split_and!; [done|done| |]; eauto.
  - exists TypeError. split_and!; [done|done|by left|].
    intros Hall. apply unset_nil in Hall. congruence.
Qed.

(** C5. When the client accepts the key and the answer of the remote data
    call has at least one group, the result of [data] is made of the first
    group alone: it is the flattening of that group with its index reset,
    or the error of doing so, whatever groups follow, and the rows of a
    frame it returns are the entries of that group's series. *)
Theorem data_uses_first_group (self : ILOStatQuery.t) (w : World)
    (dsd : DSD) (data_msg : DataMessage) (group : DataSet)
    (others : list DataSet) :
  ILOStatQuery._dsd self = Some dsd →
  make_constraint dsd (ILOStatQuery.dimensions self) = Ok () →
  remote_data (ILOStatQuery._ilostat self) (ILOStatQuery.dataflow self)
    (Some dsd) (ILOStatQuery.dimensions self) (ILOStatQuery.params self)
    = Ok data_msg →
  data data_msg = group :: others →
  (ILOStatQuery.data self w).1
  = match to_pandas group with
    | Ok series => reset_index series "value"
    | Raise e => Raise e
    end
  ∧ ∀ df, (ILOStatQuery.data self w).1 = Ok df →
      ∃ series, to_pandas group = Ok series
        ∧ rows df = map (λ e, e.1 ++ [e.2]) (entries series).
Proof.
  intros Hdsd Hkey Hmsg Hdata.
  rewrite (data_unfold self dsd w Hdsd), Hkey, Hmsg, Hdata. simpl.
  split; [by destruct (to_pandas group)|].
  intros df. destruct (to_pandas group) as [series|e]; [|done].
  intros (_ & _ & ->)%reset_index_Ok. by exists series.
Qed.

Lemma data_calls_calls (self : ILOStatQuery.t) (dsd : DSD) (n : nat)
    (w : World) :
  ILOStatQuery._dsd self = Some dsd →
  calls (data_calls self n w)
  = calls w
    ++ replicate (match make_constraint dsd (ILOStatQuery.dimensions self)
                  with
                  | Ok _ => n
                  | Raise _ => 0
                  end)
         (CallData (ILOStatQuery.dataflow self) (Some dsd)
            (ILOStatQuery.dimensions self) (ILOStatQuery.params self)).
Proof.
  intros Hdsd. revert w. induction n as [|n IH]; intros w; simpl.
  - destruct (make_constraint _ _); by rewrite app_nil_r.
  - rewrite IH, (data_unfold self dsd w Hdsd).
    destruct (make_constraint dsd (ILOStatQuery.dimensions self)); simpl.
    + by rewrite <- app_assoc.
    + done.
Qed.

(** C6 (as the code has it). The structure is fetched once for each query
    object, when it is built, and kept by that object: building a query
    makes exactly one dataflow round trip (also for an id that was resolved
    before), and any number of [data()] calls on the object adds data
    calls only, all carrying the structure fetched at construction: one
    for each call when the client makes a constraint of the selection for
    that structure, and none when the selection fails that check. *)
Theorem structure_held_per_query_object (ilo : Remote)
    (dataflow_id : string) (dimensions params : gmap string (option string))
    (w : World) (n : nat) :
  let built := ILOStatQuery.__init__ ilo dataflow_id dimensions params w in
  calls built.2 = calls w ++ [CallDataflow (Some dataflow_id)]
  ∧ ∀ self, built.1 = Ok self →
      ∃ df_msg df_flow,
        remote_dataflow ilo (Some dataflow_id) = Ok df_msg
        ∧ dict_get (dataflow df_msg) dataflow_id = Ok df_flow
        ∧ ILOStatQuery._dsd self = Some (structure df_flow)
        ∧ calls (data_calls self n built.2)
          = calls built.2
            ++ replicate
                 (match make_constraint (structure df_flow) dimensions with
                  | Ok _ => n
                  | Raise _ => 0
                  end)
                 (CallData dataflow_id (ILOStatQuery._dsd self) dimensions
                    params).
Proof.
  intros built. subst built. rewrite init_unfold. simpl.
  split; [done|]. intros self Hself.
  destruct (remote_dataflow ilo (Some dataflow_id)) as [df_msg|e]; [|done].
  destruct (dict_get (dataflow df_msg) dataflow_id) as [df_flow|e] eqn:Hflow;
    [|done].
  inversion Hself; subst; simpl. exists df_msg, df_flow.
  split_and!; [done|done|done|].
  by rewrite (data_calls_calls _ (structure df_flow)).
Qed.


End Query.

(** ** The controller (src/app/controller.py) *)

Section Controller.

Lemma set_dataframe_unfold (self : AppController.t) (area : option string)
    (dataflow : string) (dimensions : gmap string (option string))
    (start_period end_period : option string) :
  AppController.set_dataframe self area dataflow dimensions start_period
    end_period
  = run_query self dataflow (selection_sent area dimensions)
      (params_sent start_period end_period).
Proof. reflexivity. Qed.

Lemma filter_truthy_lookup (m : gmap string (option string)) (k : string) :
  filter (λ kv : string * option string, truthy kv.2) m !! k
  = match m !! k with
    | Some v => if truthy v then Some v else None
    | None => None
    end.
Proof.
  destruct (m !! k) as [v|] eqn:Hk.
  - destruct (truthy v) eqn:Hv.
    + apply map_lookup_filter_Some. split; [done|]. simpl. by rewrite Hv.
    + apply map_lookup_filter_None. right. intros v' Hv'. simpl.
      assert (v' = v) as -> by congruence. rewrite Hv. by intros [].
  - apply map_lookup_filter_None. by left.
Qed.

Lemma selection_sent_lookup (area : option string)
    (dimensions : gmap string (option string)) (k : string) :
  selection_sent area dimensions !! k
  = if truthy area && bool_decide (k = "REF_AREA") then Some area
    else match dimensions !! k with
         | Some v => if truthy v then Some v else None
         | None => None
         end.
Proof.
  unfold selection_sent. destruct (truthy area); simpl.
  - case_bool_decide as Hk.
    + subst k. by rewrite lookup_insert_eq.
    + rewrite lookup_insert_ne by done. apply filter_truthy_lookup.
  - apply filter_truthy_lookup.
Qed.

Lemma selection_sent_truthy (area : option string)
    (dimensions : gmap string (option string)) (k : string) v :
  selection_sent area dimensions !! k = Some v → truthy v = true.
Proof.
  rewrite selection_sent_lookup.
  destruct (truthy area) eqn:Harea; simpl.
  - case_bool_decide; [by intros [= <-]|].
    destruct (dimensions !! k) as [v'|]; [|done].
    destruct (truthy v') eqn:Hv'; [by intros [= <-]|done].
  - destruct (dimensions !! k) as [v'|]; [|done].
    destruct (truthy v') eqn:Hv'; [by intros [= <-]|done].
Qed.

Lemma params_sent_truthy (start_period end_period : option string)
    (k : string) v :
  params_sent start_period end_period !! k = Some v → truthy v = true.
Proof.
  unfold params_sent. rewrite filter_truthy_lookup.
  destruct (_ !! k) as [v'|]; [|done].
  destruct (truthy v') eqn:Hv'; [by intros [= <-]|done].
Qed.

Lemma params_sent_lookup (start_period end_period : option string)
    (k : string) :
  params_sent start_period end_period !! k
  = if bool_decide (k = "endPeriod") then
      (if truthy end_period then Some end_period else None)
    else if bool_decide (k = "startPeriod") then
      (if truthy start_period then Some start_period else None)
    else None.
Proof.
  unfold params_sent. rewrite filter_truthy_lookup.
  case_bool_decide as Hend.
  - subst k. by rewrite lookup_insert_eq.
  - rewrite lookup_insert_ne by done. case_bool_decide as Hstart.
    + subst k. by rewrite lookup_insert_eq.
    + by rewrite lookup_insert_ne, lookup_empty.
Qed.

Lemma CallData_inj id dsd key params id' dsd' key' params' :
  CallData id dsd key params = CallData id' dsd' key' params' →
  key = key' ∧ params = params'.
Proof. intros Heq. by injection Heq. Qed.

Lemma run_query_of_query `{Sdmx} (ilo : Remote) (dataflow_id : string)
    (key params : gmap string (option string)) (w : World) :
  calls (run_query {| AppController._ilostat := ILOStat_of_query ilo |}
           dataflow_id key params w).2
  = calls w ++ CallDataflow (Some dataflow_id)
      :: match remote_dataflow ilo (Some dataflow_id) with
         | Ok df_msg =>
             match dict_get (dataflow df_msg) dataflow_id with
             | Ok df_flow =>
                 match make_constraint (structure df_flow) key with
                 | Ok _ => [CallData dataflow_id (Some (structure df_flow))
                              key params]
                 | Raise _ => []
                 end
             | Raise _ => []
             end
         | Raise _ => []
         end.
Proof.
  unfold run_query. simpl. unfold mbind at 1, M_bind at 1.
  rewrite init_unfold. simpl.
  destruct (remote_dataflow ilo (Some dataflow_id)) as [df_msg|e]; [|done].
  destruct (dict_get (dataflow df_msg) dataflow_id) as [df_flow|e]; [|done].
  unfold mbind, M_bind.
  rewrite (data_unfold _ (structure df_flow)) by done. simpl.
  destruct (make_constraint (structure df_flow) key) as [[]|e]; [|done].
  rewrite <- app_assoc. simpl.
  by destruct (match remote_data _ _ _ _ _ with Ok _ => _ | Raise _ => _ end).
Qed.

(** C7. [set_dataframe] hands to the query a selection and params without
    empty values: a key of the selection whose value is [None] or empty is
    left out (REF_AREA comes back only with a non-empty area), an empty
    start or end period is left out of the params.  With the query class
    of [_query.py] behind the facade, once the structure of the dataflow is
    fetched and declares the keys of the selection sent, the remote data
    call is made, with exactly these two dicts, and no data call is ever
    made with others. *)
Theorem set_dataframe_sends_no_empty_value `{Sdmx} (area : option string)
    (dataflow_id : string) (dimensions : gmap string (option string))
    (start_period end_period : option string) :
  let key := selection_sent area dimensions in
  let params := params_sent start_period end_period in
  (∀ self, AppController.set_dataframe self area dataflow_id dimensions
             start_period end_period
           = run_query self dataflow_id key params)
  ∧ (∀ k v, key !! k = Some v → truthy v = true)
  ∧ (∀ k v, params !! k = Some v → truthy v = true)
  ∧ (∀ k, truthy (default None (dimensions !! k)) = false →
          k ≠ "REF_AREA" ∨ truthy area = false → key !! k = None)
  ∧ (∀ k, k ≠ "startPeriod" → k ≠ "endPeriod" → params !! k = None)
  ∧ (truthy start_period = false → params !! "startPeriod" = None)
  ∧ (truthy end_period = false → params !! "endPeriod" = None)
  ∧ (∀ ilo w df_msg df_flow,
       remote_dataflow ilo (Some dataflow_id) = Ok df_msg →
       dict_get (dataflow df_msg) dataflow_id = Ok df_flow →
       (∀ k, is_Some (key !! k) → k ∈ dsd_keys (structure df_flow)) →
       calls (AppController.set_dataframe
                {| AppController._ilostat := ILOStat_of_query ilo |}
                area dataflow_id dimensions start_period end_period w).2
       = calls w ++ [CallDataflow (Some dataflow_id);
                     CallData dataflow_id (Some (structure df_flow)) key
                       params])
  ∧ (∀ ilo w id dsd key' params',
       CallData id dsd key' params'
         ∈ calls (AppController.set_dataframe
                    {| AppController._ilostat := ILOStat_of_query ilo |}
                    area dataflow_id dimensions start_period end_period w).2 →
       CallData id dsd key' params' ∉ calls w →
       key' = key ∧ params' = params).
Proof.
  intros key params. subst key params. split_and!.
  - intros self. apply set_dataframe_unfold.
  - apply selection_sent_truthy.
  - apply params_sent_truthy.
  - intros k Hk Hor. rewrite selection_sent_lookup.
    assert (truthy area && bool_decide (k = "REF_AREA") = false) as ->.
    { destruct Hor as [Hne| ->]; [|done].
      rewrite bool_decide_eq_false_2 by done. apply andb_false_r. }
    destruct (dimensions !! k) as [v|]; [|done]. simpl in Hk. by rewrite Hk.
  - intros k Hs He. rewrite params_sent_lookup.
    by rewrite !bool_decide_eq_false_2.
  - intros Hs. rewrite params_sent_lookup. simpl. by rewrite Hs.
  - intros He. rewrite params_sent_lookup. simpl. by rewrite He.
  - intros ilo w df_msg df_flow Hmsg Hflow Hkey.
    rewrite set_dataframe_unfold, run_query_of_query, Hmsg, Hflow.
    assert (make_constraint (structure df_flow)
              (selection_sent area dimensions) = Ok ()) as ->; [|done].
    apply make_constraint_Ok. split; [|done].
    intros k _ Hnone. by apply selection_sent_truthy in Hnone.
  - intros ilo w id dsd key' params' Hin Hnot.
    rewrite set_dataframe_unfold, run_query_of_query in Hin.
    apply elem_of_app in Hin as [Hin|Hin]; [done|].
    apply elem_of_cons in Hin as [Hin|Hin]; [done|].
    destruct (remote_dataflow ilo (Some dataflow_id)) as [df_msg|e];
      [|by apply elem_of_nil in Hin].
    destruct (dict_get (dataflow df_msg) dataflow_id) as [df_flow|e];
      [|by apply elem_of_nil in Hin].
    destruct (make_constraint (structure df_flow) _) as [[]|e'];
      [|by apply elem_of_nil in Hin].
    apply list_elem_of_singleton in Hin. by apply CallData_inj in Hin.
Qed.

(** C10. With a non-empty area the query gets REF_AREA set to that area,
    whatever the caller's selection holds for REF_AREA; with an empty area
    it gets the selection's own REF_AREA value when that value is
    non-empty, and no REF_AREA otherwise. *)
Theorem set_dataframe_area_sets_ref_area (self : AppController.t)
    (area : option string) (dataflow_id : string)
    (dimensions : gmap string (option string))
    (start_period end_period : option string) :
  let key := selection_sent area dimensions in
  AppController.set_dataframe self area dataflow_id dimensions start_period
    end_period
  = run_query self dataflow_id key (params_sent start_period end_period)
  ∧ (truthy area = true → key !! "REF_AREA" = Some area)
  ∧ (truthy area = false →
     key !! "REF_AREA"
     = match dimensions !! "REF_AREA" with
       | Some v => if truthy v then Some v else None
       | None => None
       end)
  ∧ (∀ k, k ≠ "REF_AREA" →
       key !! k = selection_sent None dimensions !! k).
Proof.
  intros key. subst key. split_and!.
  - apply set_dataframe_unfold.
  - intros Harea. rewrite selection_sent_lookup, Harea. done.
  - intros Harea. rewrite selection_sent_lookup, Harea. done.
  - intros k Hk. rewrite !selection_sent_lookup.
    rewrite bool_decide_eq_false_2 by done. by rewrite andb_false_r.
Qed.

End Controller.

(** ** The claims at concrete services *)

Import Examples.

Ltac decide_it :=
  match goal with
  | |- ?P => apply (bool_decide_unpack P); vm_compute; exact I
  end.

(** C1 at DF_Y, whose structure declares FREQ, REF_AREA and TIME_PERIOD:
    the selection with the key BOGUS is refused by the key check, and the
    only round trip made is the one that fetched the structure. *)
Lemma data_rejects_undeclared_key_witness :
  @ILOStatQuery.data flat (query_Y bogus_selection ∅)
    {| calls := [CallDataflow (Some "DF_Y")]; db := []; stdout := [] |}
  = (Raise (ValueError ["BOGUS"]),
     {| calls := [CallDataflow (Some "DF_Y")]; db := []; stdout := [] |})
  ∧ ∃ names, ValueError ["BOGUS"] = ValueError names ∧ "BOGUS" ∈ names.
Proof.
  destruct (@data_rejects_undeclared_key flat service_Y "DF_Y"
              bogus_selection ∅ world0
              {| calls := [CallDataflow (Some "DF_Y")]; db := [];
                 stdout := [] |}
              (query_Y bogus_selection ∅) dsd_Y "BOGUS")
    as (e & Hdata & _ & _ & Hnames).
  - vm_compute. reflexivity.
  - reflexivity.
  - exists (Some "x"). vm_compute. reflexivity.
  - decide_it.
  - assert (e = ValueError ["BOGUS"]) as ->.
    { vm_compute in Hdata. injection Hdata as <-. reflexivity. }
    split; [reflexivity|]. apply Hnames.
    apply unset_nil. reflexivity.
Defined.

(** With [None] for the declared dimension FREQ next to the key BOGUS, the
    key check fails before it comes to the keys left over. *)
Example data_null_selection_value :
  @ILOStatQuery.data flat (query_Y (<["FREQ" := None]> bogus_selection) ∅)
    world0
  = (Raise TypeError, world0).
Proof. reflexivity. Qed.

(** C2: on the catalog of DF_X and an empty table, the second run doubles
    the rows when the table has no uniqueness constraint, and is refused
    at its first insertion when it has one. *)
Lemma crawl_rerun_duplicates_or_is_refused :
  let once u := (@countries.main flat u catalog_X world0).2 in
  let twice u := @countries.main flat u catalog_X (once u) in
  db (once false) = [("ITA", "DF_X"); ("FRA", "DF_X")]
  ∧ db (twice false).2
    = [("ITA", "DF_X"); ("FRA", "DF_X"); ("ITA", "DF_X"); ("FRA", "DF_X")]
  ∧ ¬ NoDup (db (twice false).2)
  ∧ (twice true).1 = Raise IntegrityError.
Proof.
  split_and!; [reflexivity|reflexivity| |reflexivity].
  intros Hnd. apply NoDup_cons in Hnd as [Hnot _]. apply Hnot.
  vm_compute. do 2 constructor.
Qed.

Lemma crawl_rerun_keeps_the_pairs_witness :
  NoDup (db (@countries.main flat true catalog_X
               (@countries.main flat true catalog_X world0).2).2)
  ∧ (@countries.main flat true catalog_X
       (@countries.main flat true catalog_X world0).2).1
    = Raise IntegrityError.
Proof.
  destruct (@crawl_rerun_keeps_the_pairs flat true catalog_X world0)
    as (_ & _ & Hnd & Hraise).
  split.
  - apply Hnd; [reflexivity|]. simpl. constructor.
  - apply Hraise; [reflexivity|]. intros Heq. vm_compute in Heq.
    discriminate Heq.
Defined.

(** C3: of three dataflows the second fails its constraint fetch; the
    crawl ends with that error, the pair of DF_1 is in the table and the
    pair of DF_3 is not, under either table declaration. *)
Lemma crawl_stops_at_second_of_three :
  @countries.main flat false catalog_3 world0
  = (Raise (RemoteError "timeout"),
     {| calls := [CallDataflow None; CallDataflow (Some "DF_1");
                  CallDataflow (Some "DF_2")];
        db := [("ITA", "DF_1")];
        stdout := [Added 1 "DF_1"; Finished "DF_1"; Processed 1 3] |})
  ∧ (("DEU", "DF_3") ∉ db (@countries.main flat false catalog_3 world0).2)
  ∧ @countries.main flat true catalog_3 world0
    = @countries.main flat false catalog_3 world0.
Proof.
  split_and!; [reflexivity|decide_it|reflexivity].
Qed.

Lemma crawl_aborts_at_failed_fetch_witness :
  (@countries.main flat false catalog_3 world0).1
  = Raise (RemoteError "timeout")
  ∧ db (@countries.main flat false catalog_3 world0).2
    = db world0 ++ flat_map (region_pairs catalog_3) ["DF_1"].
Proof.
  apply (@crawl_aborts_at_failed_fetch flat false catalog_3 world0
           (listing ["DF_1"; "DF_2"; "DF_3"]) ["DF_1"] ["DF_3"] "DF_2"
           (RemoteError "timeout")); reflexivity.
Defined.

(** C4: the first constraint of DF_F has no REF_AREA member set; the crawl
    ends with the key error, and the pair of the second constraint never
    reaches the table. *)
Lemma crawl_fails_without_ref_area :
  @countries.main flat false catalog_F world0
  = (Raise (KeyError "REF_AREA"),
     {| calls := [CallDataflow None; CallDataflow (Some "DF_F")];
        db := []; stdout := [] |})
  ∧ ref_area_codes (region_constraint ["ITA"]) = Some ["ITA"]
  ∧ (("ITA", "DF_F") ∉ db (@countries.main flat false catalog_F world0).2).
Proof.
  split_and!; [reflexivity|reflexivity|decide_it].
Qed.

Lemma crawl_aborts_without_ref_area_witness :
  (@countries.main flat true catalog_F world0).1 = Raise (KeyError "REF_AREA")
  ∧ db (@countries.main flat true catalog_F world0).2
    = db world0 ++ flat_map (region_pairs catalog_F) []
        ++ flat_map (λ kc : string * ContentConstraint,
                       constraint_pairs "DF_F" kc.2) [].
Proof.
  apply (@crawl_aborts_without_ref_area flat true catalog_F world0
           (listing ["DF_F"])
           {| dataflow := [];
              constraint := [("CR_FREQ", freq_constraint);
                             ("CR_AREA", region_constraint ["ITA"])] |}
           [] [] "DF_F" [] [("CR_AREA", region_constraint ["ITA"])]
           "CR_FREQ" freq_constraint
           {| member := [("FREQ", {| values := [ {| value := "A" |} ] |})] |});
    try reflexivity; decide_it.
Defined.

(** C5 at DF_Y: the frame holds the two observations of the first group
    and nothing of the second. *)
Lemma data_uses_first_group_witness :
  (@ILOStatQuery.data flat (query_Y ∅ ∅) world0).1
  = match @to_pandas flat group_Y with
    | Ok series => reset_index series "value"
    | Raise e => Raise e
    end
  ∧ ∀ df, (@ILOStatQuery.data flat (query_Y ∅ ∅) world0).1 = Ok df →
      ∃ series, @to_pandas flat group_Y = Ok series
        ∧ rows df = map (λ e, e.1 ++ [e.2]) (entries series).
Proof.
  apply (@data_uses_first_group flat (query_Y ∅ ∅) world0 dsd_Y
           (@Build_DataMessage flat [group_Y; group_Z]) group_Y [group_Z]);
    reflexivity.
Defined.

Example data_DF_Y :
  (@ILOStatQuery.data flat (query_Y ∅ ∅) world0).1 = Ok frame_Y
  ∧ @to_pandas flat group_Y = Ok series_Y.
Proof. split; reflexivity. Qed.

(** C6: resolving DF_Y a second time makes a second dataflow round
    trip, for the same structure. *)
Lemma second_query_fetches_again :
  let first_built :=
    @ILOStatQuery.__init__ flat service_Y "DF_Y" ∅ ∅ world0 in
  let second_built :=
    @ILOStatQuery.__init__ flat service_Y "DF_Y" ∅ ∅ first_built.2 in
  first_built.1 = Ok (query_Y ∅ ∅)
  ∧ second_built.1 = Ok (query_Y ∅ ∅)
  ∧ calls first_built.2 = [CallDataflow (Some "DF_Y")]
  ∧ calls second_built.2
    = [CallDataflow (Some "DF_Y"); CallDataflow (Some "DF_Y")].
Proof. split_and!; reflexivity. Qed.

Lemma structure_held_per_query_object_witness :
  calls (data_calls (query_Y ∅ ∅) 3
           (@ILOStatQuery.__init__ flat service_Y "DF_Y" ∅ ∅ world0).2)
  = calls (@ILOStatQuery.__init__ flat service_Y "DF_Y" ∅ ∅ world0).2
    ++ replicate 3 (CallData "DF_Y" (Some dsd_Y) ∅ ∅).
Proof.
  destruct (@structure_held_per_query_object flat service_Y "DF_Y" ∅ ∅
              world0 3) as [_ Hself].
  destruct (Hself (query_Y ∅ ∅) eq_refl)
    as (df_msg & df_flow & Hmsg & Hflow & Hdsd & Hcalls).
  injection Hmsg as <-. injection Hflow as <-. exact Hcalls.
Defined.

(** C7 at DF_Y: of the selection FREQ = A, SEX empty, MTS = None,
    REF_AREA = FRA with the area ITA and the periods 2015 and None, the
    remote data call gets FREQ = A and REF_AREA = ITA, and startPeriod
    alone. *)
Lemma set_dataframe_sends_no_empty_value_witness :
  calls (AppController.set_dataframe
           {| AppController._ilostat := ILOStat_of_query service_Y |}
           (Some "ITA") "DF_Y" sparse_selection (Some "2015") None world0).2
  = calls world0
    ++ [CallDataflow (Some "DF_Y");
        CallData "DF_Y" (Some dsd_Y)
          (selection_sent (Some "ITA") sparse_selection)
          (params_sent (Some "2015") None)]
  ∧ selection_sent (Some "ITA") sparse_selection
    = <["FREQ" := Some "A"]> (<["REF_AREA" := Some "ITA"]> ∅)
  ∧ params_sent (Some "2015") None = <["startPeriod" := Some "2015"]> ∅
  ∧ truthy (Some "A") = true
  ∧ selection_sent (Some "ITA") sparse_selection !! "SEX" = None
  ∧ params_sent (Some "2015") None !! "endPeriod" = None.
Proof.
  destruct (@set_dataframe_sends_no_empty_value flat (Some "ITA") "DF_Y"
              sparse_selection (Some "2015") None)
    as (_ & Hkey & _ & Hdrop & _ & _ & Hend & Hsent & Hcall).
  destruct (Hcall service_Y world0 "DF_Y" (Some dsd_Y)
              (<["FREQ" := Some "A"]> (<["REF_AREA" := Some "ITA"]> ∅))
              (<["startPeriod" := Some "2015"]> ∅)) as [Hk Hp].
  { vm_compute. apply list_elem_of_further, list_elem_of_here. }
  { apply not_elem_of_nil. }
  split_and!.
  - apply (Hsent service_Y world0
             {| dataflow := [("DF_Y", {| structure := dsd_Y |})];
                constraint := [] |} {| structure := dsd_Y |});
      [reflexivity|reflexivity|].
    apply undeclared_nil. vm_compute. reflexivity.
  - symmetry. exact Hk.
  - symmetry. exact Hp.
  - apply (Hkey "FREQ"). vm_compute. reflexivity.
  - apply Hdrop; [reflexivity|]. left. discriminate.
  - apply Hend. reflexivity.
Defined.

(** C8: in the catalog whose second dataflow fails its fetch, DF_3 is
    listed and its single constraint has the region member set [DEU] in
    its first content region, yet the crawl adds no pair for it. *)
Lemma crawl_leaves_out_later_dataflow :
  "DF_3" ∈ listed catalog_3
  ∧ crawlable catalog_3 "DF_3" = true
  ∧ region_pairs catalog_3 "DF_3" = [("DEU", "DF_3")]
  ∧ filter (λ row, row.2 = "DF_3")
      (db (@countries.main flat false catalog_3 world0).2) = []
  ∧ filter (λ row, row.2 = "DF_3")
      (db (@countries.main flat true catalog_3 world0).2) = [].
Proof.
  split_and!; [decide_it|reflexivity|reflexivity|reflexivity|reflexivity].
Qed.

(** C8 at DF_X, whose single constraint has the region member set
    [ITA, FRA]: the crawl adds the two pairs, and nothing else. *)
Lemma crawl_emits_one_pair_per_region_code_witness :
  ∃ added,
    db (@countries.main flat true catalog_X world0).2 = db world0 ++ added
    ∧ filter (λ row, row.2 = "DF_X") added
      = flat_map (λ kc, map (λ code, (code, "DF_X"))
                          (default [] (ref_area_codes kc.2)))
          [("CR_X", region_constraint ["ITA"; "FRA"])].
Proof.
  apply (@crawl_emits_one_pair_per_region_code flat true catalog_X world0
           (listing ["DF_X"])
           {| dataflow := [("DF_X", {| structure := [] |})];
              constraint := [("CR_X", region_constraint ["ITA"; "FRA"])] |}
           [] []); try reflexivity.
  decide_it.
Defined.

Example crawl_DF_X :
  @countries.main flat true catalog_X world0
  = (Ok (),
     {| calls := [CallDataflow None; CallDataflow (Some "DF_X")];
        db := [("ITA", "DF_X"); ("FRA", "DF_X")];
        stdout := [Added 2 "DF_X"; Finished "DF_X"; Processed 1 1] |})
  ∧ region_pairs catalog_X "DF_X" = [("ITA", "DF_X"); ("FRA", "DF_X")].
Proof. split; reflexivity. Qed.



(** C10 at the selection with REF_AREA = FRA: the area ITA replaces it,
    and without an area FRA goes through. *)
Lemma set_dataframe_area_sets_ref_area_witness :
  selection_sent (Some "ITA") sparse_selection !! "REF_AREA"
    = Some (Some "ITA")
  ∧ selection_sent (Some EmptyString) sparse_selection !! "REF_AREA"
    = Some (Some "FRA")
  ∧ selection_sent None sparse_selection !! "REF_AREA" = Some (Some "FRA").
Proof.
  split_and!.
  - apply (set_dataframe_area_sets_ref_area
             {| AppController._ilostat := ILOStat_of_query service_Y |}
             (Some "ITA") "DF_Y" sparse_selection None None). reflexivity.
  - destruct (set_dataframe_area_sets_ref_area
                {| AppController._ilostat := ILOStat_of_query service_Y |}
                (Some EmptyString) "DF_Y" sparse_selection None None)
      as (_ & _ & Hempty & _).
    rewrite Hempty by reflexivity. reflexivity.
  - destruct (set_dataframe_area_sets_ref_area
                {| AppController._ilostat := ILOStat_of_query service_Y |}
                None "DF_Y" sparse_selection None None)
      as (_ & _ & Hnone & _).
    rewrite Hnone by reflexivity. reflexivity.
Defined.

(** * More properties of the code *)

(** ** [init_current_dimensions] (src/app/controller.py) *)

Section CurrentDimensions.
Import Dimensions.

Lemma complete_key_default (dim : entry) :
  complete dim = true →
  ∃ key val, entry_key dim = Ok key ∧ entry_default dim = Ok val.
Proof.
  unfold complete, entry_key, entry_default, subscript.
  destruct (dimension dim) as [|key ?]; [done|].
  destruct (Dimensions.values dim) as [|[|? [|val ?]] ?]; try done.
  intros _. by exists key, val.
Qed.

Lemma incomplete_key_default (dim : entry) :
  complete dim = false →
  entry_key dim = Raise IndexError
  ∨ (∃ key, entry_key dim = Ok key) ∧ entry_default dim = Raise IndexError.
Proof.
  unfold complete, entry_key, entry_default, subscript.
  destruct (dimension dim) as [|key ?]; [by left|].
  destruct (Dimensions.values dim) as [|[|? [|val ?]] ?]; try done;
    intros _; right; (split; [by exists key|done]).
Qed.

Lemma entry_key_head (dim : entry) (key : string) :
  entry_key dim = Ok key ↔ head (dimension dim) = Some key.
Proof.
  unfold entry_key, subscript. destruct (dimension dim); simpl; split;
    congruence.
Qed.

Lemma fill_outcome (dimensions : list entry)
    (acc : gmap string (option string)) :
  match fill dimensions acc with
  | Ok _ => forallb complete dimensions = true
  | Raise e => e = IndexError ∧ forallb complete dimensions = false
  end.
Proof.
  revert acc. induction dimensions as [|dim dims IH]; intros acc; simpl;
    [done|].
  destruct (complete dim) eqn:Hc.
  - destruct (complete_key_default dim Hc) as (key & val & -> & ->).
    apply IH.
  - destruct (incomplete_key_default dim Hc) as [->|[[key ->] ->]]; done.
Qed.

Lemma fill_app (pre post : list entry) (acc : gmap string (option string)) :
  fill (pre ++ post) acc
  = match fill pre acc with
    | Ok current => fill post current
    | Raise e => Raise e
    end.
Proof.
  revert acc. induction pre as [|dim pre IH]; intros acc; simpl; [done|].
  destruct (entry_key dim) as [key|e]; [|done].
  destruct (entry_default dim) as [val|e]; [|done]. apply IH.
Qed.

Lemma fill_lookup_other (dimensions : list entry)
    (acc current : gmap string (option string)) (k : string) :
  fill dimensions acc = Ok current →
  (∀ dim, dim ∈ dimensions → entry_key dim ≠ Ok k) →
  current !! k = acc !! k.
Proof.
  revert acc. induction dimensions as [|dim dims IH]; intros acc; simpl.
  - by intros [= <-] _.
  - intros Hfill Hother.
    destruct (entry_key dim) as [key|e] eqn:Hkey; [|done].
    destruct (entry_default dim) as [val|e]; [|done].
    rewrite (IH _ Hfill) by (intros d Hd; apply Hother; by right).
    apply lookup_insert_ne. intros ->. by apply (Hother dim); [left|].
Qed.

Lemma fill_dom (dimensions : list entry)
    (acc current : gmap string (option string)) :
  fill dimensions acc = Ok current →
  dom current = list_to_set (entry_keys dimensions) ∪ dom acc.
Proof.
  revert acc. induction dimensions as [|dim dims IH]; intros acc; simpl.
  - intros [= <-]. by rewrite (left_id_L ∅ (∪)).
  - destruct (entry_key dim) as [key|e] eqn:Hkey; [|done].
    destruct (entry_default dim) as [val|e]; [|done].
    intros Hfill. rewrite (IH _ Hfill), dom_insert_L.
    apply entry_key_head in Hkey. unfold entry_keys. simpl.
    rewrite Hkey. simpl.
    by rewrite (assoc_L (∪)), (comm_L (∪) (list_to_set _) {[key]}).
Qed.

(** X1. [init_current_dimensions] returns a dict exactly when every entry
    has a key and a first choice with a code; otherwise it raises an
    index error, whichever entry is short. *)
Theorem init_current_dimensions_outcome (dimensions : list entry) :
  match init_current_dimensions dimensions with
  | Ok _ => forallb complete dimensions = true
  | Raise e => e = IndexError ∧ forallb complete dimensions = false
  end.
Proof. apply fill_outcome. Qed.

(** X2. In the dict that [init_current_dimensions] returns, a key holds
    the code of the first choice of the last entry with that key: a later
    entry for the same dimension replaces an earlier one. *)
Theorem init_current_dimensions_last_wins (pre post : list entry)
    (dim : entry) (key : string)
    (current : gmap string (option string)) :
  init_current_dimensions (pre ++ dim :: post) = Ok current →
  entry_key dim = Ok key →
  (∀ later, later ∈ post → entry_key later ≠ Ok key) →
  ∃ val, entry_default dim = Ok val ∧ current !! key = Some (Some val).
Proof.
  unfold init_current_dimensions. rewrite fill_app.
  destruct (fill pre ∅) as [before|e]; [|done]. simpl.
  intros Hfill Hkey Hpost. rewrite Hkey in Hfill.
  destruct (entry_default dim) as [val|e]; [|done].
  exists val. split; [done|].
  rewrite (fill_lookup_other _ _ _ key Hfill Hpost).
  apply lookup_insert_eq.
Qed.

(** X3. The keys of the dict that [init_current_dimensions] returns are
    the keys of the entries, no more and no less; when the entries have
    distinct keys the dict has one item per entry. *)
Theorem init_current_dimensions_keys (dimensions : list entry)
    (current : gmap string (option string)) :
  init_current_dimensions dimensions = Ok current →
  dom current = list_to_set (entry_keys dimensions)
  ∧ length (entry_keys dimensions) = length dimensions
  ∧ (NoDup (entry_keys dimensions) → size current = length dimensions).
Proof.
  intros Hfill. unfold init_current_dimensions in Hfill.
  pose proof (fill_dom _ _ _ Hfill) as Hdom.
  rewrite dom_empty_L, (right_id_L ∅ (∪)) in Hdom.
  assert (length (entry_keys dimensions) = length dimensions) as Hlen.
  { pose proof (fill_outcome dimensions ∅) as Hall. rewrite Hfill in Hall.
    clear Hfill Hdom. induction dimensions as [|dim dims IH]; [done|].
    simpl in Hall. apply andb_true_iff in Hall as [Hc Hall].
    destruct (complete_key_default dim Hc) as (key & _ & Hkey & _).
    apply entry_key_head in Hkey. unfold entry_keys in *. simpl.
    rewrite Hkey. simpl. f_equal. by apply IH. }
  split_and!; [done|done|].
  intros Hnd. rewrite <- size_dom, Hdom, size_list_to_set by done. done.
Qed.

End CurrentDimensions.

(** ** Frames and charts (src/ilostat/_query.py, src/app/controller.py) *)

Section Frames.
Context `{Sdmx}.

Lemma replace_cell_again (c : cell) :
  replace_cell (Str EmptyString) NaN (replace_cell (Str EmptyString) NaN c)
  = replace_cell (Str EmptyString) NaN c.
Proof.
  unfold replace_cell. destruct (decide (c = Str EmptyString)) as [->|Hne].
  - by rewrite decide_False.
  - by rewrite decide_False.
Qed.

Lemma replace_cell_not_empty (c : cell) :
  replace_cell (Str EmptyString) NaN c ≠ Str EmptyString.
Proof. unfold replace_cell. by case_decide. Qed.

Lemma replace_in_row_length (cols : list string) (col : string)
    (old new : cell) (row : list cell) :
  length (replace_in_row cols col old new row) = length row.
Proof.
  revert row. induction cols as [|c cols IH]; intros [|x row]; simpl;
    [done|done|done|]. by rewrite IH.
Qed.

Lemma replace_in_row_lookup (cols : list string) (col : string)
    (old new : cell) (row : list cell) (j : nat) :
  replace_in_row cols col old new row !! j
  = if bool_decide (cols !! j = Some col)
    then replace_cell old new <$> row !! j else row !! j.
Proof.
  revert row j. induction cols as [|c cols IH]; intros row j.
  - by rewrite bool_decide_eq_false_2.
  - simpl. destruct row as [|x row]; [by case_bool_decide|].
    destruct j as [|j]; simpl; [|apply IH].
    destruct (String.eqb_spec c col) as [->|Hne].
    + by rewrite bool_decide_eq_true_2.
    + rewrite bool_decide_eq_false_2; [done|]. by intros [= ?].
Qed.

Lemma replace_in_row_again (cols : list string) (col : string)
    (row : list cell) :
  replace_in_row cols col (Str EmptyString) NaN
    (replace_in_row cols col (Str EmptyString) NaN row)
  = replace_in_row cols col (Str EmptyString) NaN row.
Proof.
  revert row. induction cols as [|c cols IH]; intros [|x row]; simpl;
    [done|done|done|].
  rewrite IH. by destruct (String.eqb c col); rewrite ?replace_cell_again.
Qed.


Lemma render_chart_Some (df df' : DataFrame) :
  AppController.render_chart df = Some df' ↔
  "value" ∈ columns df
  ∧ df' = replace_in_column df "value" (Str EmptyString) NaN.
Proof.
  unfold AppController.render_chart. case_bool_decide as Hin.
  - split; [by intros [= <-]|]. by intros [_ ->].
  - split; [done|]. by intros [? _].
Qed.

(** X4. Building a query makes one dataflow round trip and nothing else.
    If that call fails, the constructor raises its error; if the answer
    does not hold the dataflow id, it raises a key error for the id; in
    both cases no query object exists.  Otherwise the object holds the
    selection and params as given and the structure of that dataflow. *)
Theorem query_construction_outcomes (ilo : Remote) (dataflow_id : string)
    (dimensions params : gmap string (option string)) (w : World) :
  let built := ILOStatQuery.__init__ ilo dataflow_id dimensions params w in
  built.2 = {| calls := calls w ++ [CallDataflow (Some dataflow_id)];
               db := db w; stdout := stdout w |}
  ∧ (∀ e, remote_dataflow ilo (Some dataflow_id) = Raise e →
          built.1 = Raise e)
  ∧ (∀ df_msg, remote_dataflow ilo (Some dataflow_id) = Ok df_msg →
       dataflow_id ∉ dict_keys (dataflow df_msg) →
       built.1 = Raise (KeyError dataflow_id))
  ∧ (∀ df_msg df_flow,
       remote_dataflow ilo (Some dataflow_id) = Ok df_msg →
       dict_get (dataflow df_msg) dataflow_id = Ok df_flow →
       built.1 = Ok {| ILOStatQuery.dataflow := dataflow_id;
                       ILOStatQuery.dimensions := dimensions;
                       ILOStatQuery.params := params;
                       ILOStatQuery._ilostat := ilo;
                       ILOStatQuery._dsd := Some (structure df_flow) |}).
Proof.
  intros built. subst built. rewrite init_unfold. simpl. split_and!.
  - done.
  - by intros e ->.
  - intros df_msg -> Hnot. by rewrite dict_get_absent.
  - by intros df_msg df_flow -> ->.
Qed.

(** X5. When the client accepts the key, and the series of the first
    group has distinct levels, none of them called [value], and one index
    cell per level in every entry, [data] returns a rectangular frame:
    every row has one cell per column, the last one under [value]. *)
Theorem data_frame_rectangular (self : ILOStatQuery.t) (w : World)
    (dsd : DSD) (data_msg : DataMessage) (group : DataSet)
    (others : list DataSet) (series : Series) :
  ILOStatQuery._dsd self = Some dsd →
  make_constraint dsd (ILOStatQuery.dimensions self) = Ok () →
  remote_data (ILOStatQuery._ilostat self) (ILOStatQuery.dataflow self)
    (Some dsd) (ILOStatQuery.dimensions self) (ILOStatQuery.params self)
    = Ok data_msg →
  data data_msg = group :: others →
  to_pandas group = Ok series →
  NoDup (index_names series) →
  "value" ∉ index_names series →
  rectangular series →
  ∃ df, (ILOStatQuery.data self w).1 = Ok df
    ∧ last (columns df) = Some "value"
    ∧ Forall (λ row, length row = length (columns df)) (rows df).
Proof.
  intros Hdsd Hkey Hmsg Hdata Hseries Hnd Hnot Hrect.
  rewrite (data_unfold self dsd w Hdsd), Hkey, Hmsg, Hdata, Hseries. simpl.
  eexists. split; [by apply reset_index_Ok|]. simpl.
  split; [apply last_snoc|].
  apply Forall_fmap. eapply Forall_impl; [exact Hrect|].
  intros e He. simpl. rewrite !length_app, He. done.
Qed.

(** X6. The frame that [render_chart] plots differs from the frame it is
    given only in the columns called [value], where every empty text has
    become NaN: the columns, the number of rows, the length of every row
    and every cell of another column are the same, and no empty text is
    left in a [value] column. *)
Theorem render_chart_replaces_empty_values (df df' : DataFrame) :
  AppController.render_chart df = Some df' →
  "value" ∈ columns df
  ∧ columns df' = columns df
  ∧ length (rows df') = length (rows df)
  ∧ ∀ i row, rows df !! i = Some row →
      ∃ row', rows df' !! i = Some row'
        ∧ length row' = length row
        ∧ (∀ j, columns df !! j ≠ Some "value" → row' !! j = row !! j)
        ∧ (∀ j, columns df !! j = Some "value" →
             row' !! j = replace_cell (Str EmptyString) NaN <$> row !! j
             ∧ row' !! j ≠ Some (Str EmptyString)).
Proof.
  intros [Hin ->]%render_chart_Some. simpl.
  split_and!; [done|done|by rewrite length_map|].
  intros i row Hrow.
  exists (replace_in_row (columns df) "value" (Str EmptyString) NaN row).
  split_and!.
  - by rewrite list_lookup_fmap, Hrow.
  - apply replace_in_row_length.
  - intros j Hj. rewrite replace_in_row_lookup.
    by rewrite bool_decide_eq_false_2.
  - intros j Hj. rewrite replace_in_row_lookup.
    rewrite bool_decide_eq_true_2 by done. split; [done|].
    destruct (row !! j) as [c|]; [|done]. simpl.
    intros [= Hc]. by apply replace_cell_not_empty in Hc.
Qed.

(** X7. Replacing the empty values once is enough: [render_chart] leaves
    the frame it has plotted as it is. *)
Theorem render_chart_idempotent (df df' : DataFrame) :
  AppController.render_chart df = Some df' →
  AppController.render_chart df' = Some df'.
Proof.
  intros [Hin ->]%render_chart_Some. apply render_chart_Some.
  split; [done|]. unfold replace_in_column. simpl. f_equal.
  rewrite map_map. apply map_ext. intros row. symmetry.
  apply replace_in_row_again.
Qed.


(** X9. A frame returned by [data] none of whose columns has [classif] in
    its name, in whatever case, gives a chart without a single line,
    whatever the grouping does. *)
Theorem chart_without_classification (self : ILOStatQuery.t) (w : World)
    (df : DataFrame) :
  (ILOStatQuery.data self w).1 = Ok df →
  forallb (λ name, negb (Chart.contains "classif" (Chart.lower name)))
    (columns df) = true →
  ∀ groupby, Chart.render_chart_lines groupby df = Some (Ok []).
Proof.
  intros (dsd & data_msg & group & others & series & _ & _ & _ & _
          & Hframe)%data_Ok_inv Hnames groupby.
  apply reset_index_Ok in Hframe as (_ & _ & ->).
  unfold Chart.render_chart_lines, AppController.render_chart.
  rewrite bool_decide_eq_true_2 by (apply elem_of_app; right; left).
  unfold Chart.classifications. simpl in *.
  rewrite filter_none; [done|].
  intros col Hcol%list_elem_of_In. rewrite forallb_forall in Hnames.
  specialize (Hnames _ Hcol). apply negb_true_iff in Hnames.
  rewrite Hnames. by intros [].
Qed.

End Frames.

(** ** What the crawl asks, reports and stores (src/countries.py) *)

Section CrawlReport.
Context `{Sdmx}.
Variable unique : bool.
Variable ilostat : Remote.

Lemma bind_keeps {A B X} (view : World → X) (m : M A) (f : A → M B) :
  (∀ w, view (m w).2 = view w) → (∀ a w, view (f a w).2 = view w) →
  ∀ w, view ((m ≫= f) w).2 = view w.
Proof.
  intros Hm Hf w. unfold mbind, M_bind. specialize (Hm w).
  destruct (m w) as [[a|e] w']; simpl in *; [|done]. by rewrite Hf.
Qed.

Lemma for_each_keeps {A X} (view : World → X) (body : A → M ())
    (l : list A) :
  (∀ x w, view (body x w).2 = view w) →
  ∀ w, view (for_each l body w).2 = view w.
Proof.
  intros Hbody. induction l as [|x l IH]; simpl; [done|].
  apply bind_keeps; [apply Hbody|]. by intros _.
Qed.

Lemma constraint_body_keeps {X} (view : World → X) dataflow_id constraints :
  (∀ w row, view {| calls := calls w; db := db w ++ [row];
                    stdout := stdout w |} = view w) →
  (∀ w n id, view {| calls := calls w; db := db w;
                     stdout := stdout w ++ [Added n id] |} = view w) →
  ∀ constraint_id w,
    view (countries.constraint_body unique dataflow_id constraints
            constraint_id w).2 = view w.
Proof.
  intros Hrow Hadded constraint_id. unfold countries.constraint_body.
  apply bind_keeps; [done|]. intros c.
  apply bind_keeps; [done|]. intros cr.
  apply bind_keeps; [done|]. intros ref_area.
  apply bind_keeps.
  - apply for_each_keeps. intros mv w. unfold countries.execute_insert.
    destruct (unique && bool_decide _); [done|]. apply Hrow.
  - intros _ w. apply Hadded.
Qed.

Lemma progress_app (out out' : list Printed) :
  progress (out ++ out') = progress out ++ progress out'.
Proof. apply filter_app. Qed.

Lemma progress_added (out : list Printed) (n : nat) (id : string) :
  progress (out ++ [Added n id]) = progress out.
Proof. rewrite progress_app. apply app_nil_r. Qed.

(** The body of the outer loop: one fetch, some [Added] lines, and either
    the two progress lines and the next count, or an error. *)
Lemma dataflow_body_shape (ids : list string) (n : nat) (id : string)
    (w : World) :
  ∃ w1, calls w1 = calls w ++ [CallDataflow (Some id)]
    ∧ progress (stdout w1) = progress (stdout w)
    ∧ (countries.dataflow_body unique ilostat ids n id w
       = (Ok (S n),
          {| calls := calls w1; db := db w1;
             stdout := (stdout w1 ++ [Finished id])
                       ++ [Processed (S n) (length ids)] |})
       ∨ ∃ e, countries.dataflow_body unique ilostat ids n id w
              = (Raise e, w1)).
Proof.
  unfold countries.dataflow_body, mbind, M_bind, client_dataflow.
  destruct (remote_dataflow ilostat (Some id)) as [msg|e].
  - set (w0 := {| calls := calls w ++ [CallDataflow (Some id)]; db := db w;
                  stdout := stdout w |}).
    pose proof (for_each_keeps calls
      (countries.constraint_body unique id (constraint msg))
      (dict_keys (constraint msg))
      (constraint_body_keeps calls id (constraint msg)
         (λ _ _, eq_refl) (λ _ _ _, eq_refl)) w0) as Hcalls.
    pose proof (for_each_keeps (λ w, progress (stdout w))
      (countries.constraint_body unique id (constraint msg))
      (dict_keys (constraint msg))) as Hout.
    specialize (Hout (constraint_body_keeps (λ w, progress (stdout w)) id
      (constraint msg) (λ _ _, eq_refl)
      (λ w n' id', progress_added (stdout w) n' id')) w0).
    destruct (for_each _ _ w0) as [[[]|e] w1]; simpl in *.
    + exists w1. split_and!; [done|done|]. left.
      unfold print, mret, M_ret. simpl. by rewrite Nat.add_1_r.
    + exists w1. split_and!; [done|done|]. right. by exists e.
  - eexists. split_and!; [| |right; by exists e]; done.
Qed.

Lemma dataflow_loop_shape (ids todo : list string) (n : nat) (w : World) :
  ∃ k, calls (countries.dataflow_loop unique ilostat ids todo n w).2
       = calls w ++ map (λ id, CallDataflow (Some id)) (take k todo)
    ∧ (∃ j, (j ≤ k)%nat
       ∧ progress (stdout (countries.dataflow_loop unique ilostat ids todo n
                             w).2)
         = progress (stdout w)
           ++ progress_lines (length ids) (take j todo) n
       ∧ ((countries.dataflow_loop unique ilostat ids todo n w).1 = Ok () →
          j = length todo))
    ∧ ((countries.dataflow_loop unique ilostat ids todo n w).1 = Ok () →
       k = length todo).
Proof.
  revert n w. induction todo as [|id todo IH]; intros n w; simpl.
  - exists 0. simpl. rewrite !app_nil_r. split_and!; [done| |done].
    exists 0. simpl. by rewrite app_nil_r.
  - unfold mbind, M_bind.
    destruct (dataflow_body_shape ids n id w)
      as (w1 & Hcalls & Hout & [Hbody|[e Hbody]]); rewrite Hbody.
    + match goal with
      | |- context [countries.dataflow_loop _ _ _ _ _ ?w2] =>
          destruct (IH (S n) w2) as (k & Hk & (j & Hjk & Hj & HjOk) & HkOk)
      end.
      exists (S k). simpl in *. split_and!.
      * rewrite Hk, Hcalls. by rewrite <- app_assoc.
      * exists (S j). split; [lia|]. split.
        -- rewrite Hj, !progress_app, Hout. simpl.
           by rewrite <- !app_assoc.
        -- intros HOk. by rewrite (HjOk HOk).
      * intros HOk. by rewrite (HkOk HOk).
    + exists 1. simpl. split_and!; [done| |done].
      exists 0. simpl. rewrite app_nil_r. split_and!; [lia|done|done].
Qed.

Lemma main_shape (w : World) :
  countries.main unique ilostat w
  = match remote_dataflow ilostat None with
    | Ok msg =>
        countries.dataflow_loop unique ilostat (dict_keys (dataflow msg))
          (dict_keys (dataflow msg)) 0
          {| calls := calls w ++ [CallDataflow None]; db := db w;
             stdout := stdout w |}
    | Raise e =>
        (Raise e, {| calls := calls w ++ [CallDataflow None]; db := db w;
                     stdout := stdout w |})
    end.
Proof.
  unfold countries.main, mbind, M_bind, client_dataflow.
  by destruct (remote_dataflow ilostat None).
Qed.

(** X10. The crawl asks the service for the listing once and then for the
    dataflows of the listing, one call each, in the order of the listing,
    up to the dataflow at which it ends; it never makes a data call.  A
    crawl that ends without error has asked for every listed dataflow. *)
Theorem crawl_round_trips (w : World) :
  ∃ k, calls (countries.main unique ilostat w).2
       = calls w ++ CallDataflow None
           :: map (λ id, CallDataflow (Some id)) (take k (listed ilostat))
    ∧ ((countries.main unique ilostat w).1 = Ok () →
       k = length (listed ilostat)).
Proof.
  rewrite main_shape. unfold listed.
  destruct (remote_dataflow ilostat None) as [msg|e].
  - destruct (dataflow_loop_shape (dict_keys (dataflow msg))
                (dict_keys (dataflow msg)) 0
                {| calls := calls w ++ [CallDataflow None]; db := db w;
                   stdout := stdout w |}) as (k & Hk & _ & HOk).
    exists k. split; [|done]. rewrite Hk. simpl. by rewrite <- app_assoc.
  - exists 0. by simpl.
Qed.

(** X11. The progress lines that the crawl prints are, for the dataflows
    it gets through, in the order of the listing: the line that the
    dataflow is finished, then its position counted from one with the size
    of the listing.  A crawl that ends without error has printed them for
    every listed dataflow, the last count being the size of the listing. *)
Theorem crawl_progress_report (w : World) :
  ∃ j, progress (stdout (countries.main unique ilostat w).2)
       = progress (stdout w)
         ++ progress_lines (length (listed ilostat))
              (take j (listed ilostat)) 0
    ∧ ((countries.main unique ilostat w).1 = Ok () →
       j = length (listed ilostat)).
Proof.
  rewrite main_shape. unfold listed.
  destruct (remote_dataflow ilostat None) as [msg|e].
  - destruct (dataflow_loop_shape (dict_keys (dataflow msg))
                (dict_keys (dataflow msg)) 0
                {| calls := calls w ++ [CallDataflow None]; db := db w;
                   stdout := stdout w |}) as (_ & _ & (j & _ & Hj & HOk) & _).
    exists j. by split.
  - exists 0. simpl. by rewrite app_nil_r.
Qed.

End CrawlReport.

Section CrawlStore.
Context `{Sdmx}.
Variable unique : bool.
Variable ilostat : Remote.

Lemma entry_rows_codes (dataflow_id : string) (c : ContentConstraint) row :
  row ∈ (entry_rows dataflow_id c).1 →
  row.2 = dataflow_id
  ∧ ∃ codes, ref_area_codes c = Some codes ∧ row.1 ∈ codes.
Proof.
  unfold entry_rows, ref_area_codes.
  destruct (data_content_region c) as [|cr crs]; simpl;
    [by intros ?%elem_of_nil|].
  destruct (dict_get (member cr) "REF_AREA") as [ref_area|e]; simpl;
    [|by intros ?%elem_of_nil].
  intros (mv & -> & Hmv)%list_elem_of_fmap. split; [done|].
  eexists. split; [done|]. simpl. apply list_elem_of_fmap. by exists mv.
Qed.

(** X12. The crawl only appends to the table, and every row it appends is
    a pair of a listed dataflow id and a region code that the REF_AREA
    member set of the first content region of one of that dataflow's
    constraints holds. *)
Theorem crawl_stores_only_region_pairs (w : World) :
  ∃ added,
    db (countries.main unique ilostat w).2 = db w ++ added
    ∧ ∀ region dataflow_id, (region, dataflow_id) ∈ added →
        dataflow_id ∈ listed ilostat
        ∧ ∃ msg constraint_id c codes,
            remote_dataflow ilostat (Some dataflow_id) = Ok msg
            ∧ dict_get (constraint msg) constraint_id = Ok c
            ∧ ref_area_codes c = Some codes
            ∧ region ∈ codes.
Proof.
  rewrite main_db.
  destruct (insert_all_extends unique (db w) (main_rows ilostat).1)
    as [k ->].
  exists (take k (main_rows ilostat).1). split; [done|].
  intros region dataflow_id Hin.
  apply list_elem_of_lookup in Hin as [i Hi].
  apply lookup_take_Some in Hi as [Hi _].
  apply list_elem_of_lookup_2 in Hi.
  unfold main_rows, listed in *.
  destruct (remote_dataflow ilostat None) as [listing|e];
    [|by apply elem_of_nil in Hi].
  apply (walk_rows_from (dataflow_rows ilostat) _
           (λ id row, row ∈ (dataflow_rows ilostat id).1)) in Hi
    as (id & Hid & Hrow); [|done].
  pose proof (dataflow_rows_dataflow _ _ _ Hrow) as Heq. simpl in Heq.
  subst id. split; [done|].
  unfold dataflow_rows in Hrow.
  destruct (remote_dataflow ilostat (Some dataflow_id)) as [msg|e];
    [|by apply elem_of_nil in Hrow].
  apply (walk_rows_from _ _
           (λ cid row, row ∈ (constraint_rows dataflow_id (constraint msg)
                                 cid).1)) in Hrow
    as (cid & _ & Hrow); [|done].
  unfold constraint_rows in Hrow.
  destruct (dict_get (constraint msg) cid) as [c|e] eqn:Hc;
    [|by apply elem_of_nil in Hrow].
  apply entry_rows_codes in Hrow as (_ & codes & Hcodes & Hregion).
  by exists msg, cid, c, codes.
Qed.

(** X13. At a constraint that has no content region at all the crawl ends
    with an index error: the table has gained the pairs of the dataflows
    and constraints before it, and nothing after. *)
Theorem crawl_aborts_without_content_region (w : World)
    (listing msg : StructureMessage) (pre post : list string)
    (dataflow_id : string) (before after : dict ContentConstraint)
    (constraint_id : string) (c : ContentConstraint) :
  remote_dataflow ilostat None = Ok listing →
  dict_keys (dataflow listing) = pre ++ dataflow_id :: post →
  forallb (crawlable ilostat) pre = true →
  remote_dataflow ilostat (Some dataflow_id) = Ok msg →
  constraint msg = before ++ (constraint_id, c) :: after →
  NoDup (dict_keys (constraint msg)) →
  forallb (λ kc, bool_decide (is_Some (ref_area_codes kc.2))) before = true →
  data_content_region c = [] →
  refused unique (db w)
    (flat_map (region_pairs ilostat) pre
     ++ flat_map (λ kc, constraint_pairs dataflow_id kc.2) before) = false →
  (countries.main unique ilostat w).1 = Raise IndexError
  ∧ db (countries.main unique ilostat w).2
    = db w ++ flat_map (region_pairs ilostat) pre
           ++ flat_map (λ kc, constraint_pairs dataflow_id kc.2) before.
Proof.
  intros Hlist Hids Hpre Hmsg Hcs Hnd Hbefore Hcr Href.
  assert (dataflow_rows ilostat dataflow_id
          = (flat_map (λ kc, constraint_pairs dataflow_id kc.2) before,
             Raise IndexError)) as Hdf.
  { unfold dataflow_rows. rewrite Hmsg, walk_constraints by done.
    rewrite Hcs, walk_app.
    rewrite (walk_all_ok _ (λ kc, constraint_pairs dataflow_id kc.2)).
    - simpl. unfold entry_rows at 1. rewrite Hcr. simpl.
      by rewrite app_nil_r.
    - intros [k c'] Hin. simpl. apply entry_rows_exposed.
      rewrite forallb_forall in Hbefore. apply list_elem_of_In in Hin.
      specialize (Hbefore _ Hin). by apply bool_decide_eq_true in Hbefore. }
  assert (main_rows ilostat
          = (flat_map (region_pairs ilostat) pre
             ++ flat_map (λ kc, constraint_pairs dataflow_id kc.2) before,
             Raise IndexError)) as Hrows.
  { unfold main_rows. rewrite Hlist, Hids, walk_app.
    rewrite (walk_crawlable _ _ Hpre). simpl. by rewrite Hdf. }
  rewrite main_outcome, main_db, Hrows. simpl. rewrite Href.
  split; [done|]. by rewrite insert_all_not_refused.
Qed.

End CrawlStore.

(** ** More of [set_dataframe] (src/app/controller.py) *)

Section DataFetch.

(** X15. [set_dataframe] invents nothing and changes no value: a key of
    the selection it sends is REF_AREA with the area as value, or a key of
    the caller's selection with the caller's value; and a non-empty value
    of the caller's selection is sent as it is, unless it is the REF_AREA
    that a non-empty area replaces. *)
Theorem set_dataframe_keeps_values (area : option string)
    (dimensions : gmap string (option string)) :
  let key := selection_sent area dimensions in
  (∀ k v, key !! k = Some v →
      (k = "REF_AREA" ∧ v = area ∧ truthy area = true)
      ∨ dimensions !! k = Some v)
  ∧ (∀ k v, dimensions !! k = Some v → truthy v = true →
       k ≠ "REF_AREA" ∨ truthy area = false → key !! k = Some v).
Proof.
  intros key. subst key. split.
  - intros k v. rewrite selection_sent_lookup.
    destruct (truthy area) eqn:Harea; simpl.
    + case_bool_decide as Hk; [intros [= <-]; by left|].
      destruct (dimensions !! k) as [v'|]; [|done].
      destruct (truthy v'); [|done]. intros [= <-]. by right.
    + destruct (dimensions !! k) as [v'|]; [|done].
      destruct (truthy v'); [|done]. intros [= <-]. by right.
  - intros k v Hk Hv Hor. rewrite selection_sent_lookup, Hk, Hv.
    destruct Hor as [Hne| ->]; [|done].
    by rewrite bool_decide_eq_false_2, andb_false_r.
Qed.

(** X16. The params that [set_dataframe] sends are empty exactly when the
    start period and the end period are both [None] or empty: only then is
    the query unbounded on both sides. *)
Theorem set_dataframe_unbounded (start_period end_period : option string) :
  params_sent start_period end_period = ∅
  ↔ truthy start_period = false ∧ truthy end_period = false.
Proof.
  split.
  - intros Hempty. split.
    + pose proof (params_sent_lookup start_period end_period "startPeriod")
        as Hs.
      rewrite Hempty, lookup_empty in Hs. simpl in Hs.
      by destruct (truthy start_period).
    + pose proof (params_sent_lookup start_period end_period "endPeriod")
        as He.
      rewrite Hempty, lookup_empty in He. simpl in He.
      by destruct (truthy end_period).
  - intros [Hs He]. apply map_eq. intros k.
    rewrite params_sent_lookup, lookup_empty, Hs, He.
    by repeat case_bool_decide.
Qed.

End DataFetch.

Section FirstRegion.
Context `{Sdmx}.

Lemma dict_get_map {V W} (f : V → W) (d : dict V) (k : string) :
  dict_get (map (λ kv, (kv.1, f kv.2)) d) k
  = match dict_get d k with
    | Ok v => Ok (f v)
    | Raise e => Raise e
    end.
Proof.
  induction d as [|[k' v] d IH]; simpl; [done|].
  by destruct (String.eqb k' k).
Qed.

Lemma entry_rows_first_region (dataflow_id : string) (c : ContentConstraint) :
  entry_rows dataflow_id (first_region_only c) = entry_rows dataflow_id c.
Proof.
  unfold entry_rows, first_region_only. simpl.
  by destruct (data_content_region c).
Qed.

Lemma main_rows_first_regions (ilostat : Remote) :
  main_rows (first_regions_only ilostat) = main_rows ilostat.
Proof.
  unfold main_rows. simpl.
  destruct (remote_dataflow ilostat None) as [listing|e]; [|done]. simpl.
  apply walk_ext_in. intros id _. unfold dataflow_rows. simpl.
  destruct (remote_dataflow ilostat (Some id)) as [msg|e]; [|done]. simpl.
  unfold dict_keys. rewrite map_map. simpl.
  apply walk_ext_in. intros cid _. unfold constraint_rows.
  rewrite dict_get_map.
  destruct (dict_get (constraint msg) cid) as [c|e]; [|done].
  apply entry_rows_first_region.
Qed.

(** X17. The crawl reads the first content region of a constraint and no
    other: against a service whose constraints are cut down to their first
    content region it stores the same rows and ends in the same way. *)
Theorem crawl_reads_first_region_only (unique : bool) (ilostat : Remote)
    (w : World) :
  db (countries.main unique (first_regions_only ilostat) w).2
  = db (countries.main unique ilostat w).2
  ∧ (countries.main unique (first_regions_only ilostat) w).1
    = (countries.main unique ilostat w).1.
Proof.
  by rewrite !main_db, !main_outcome, main_rows_first_regions.
Qed.

End FirstRegion.

(** ** The further properties at concrete inputs *)

Import MoreExamples.

(** X1 at entries one of which has no choices. *)
Example init_current_dimensions_short_entry :
  Dimensions.init_current_dimensions [sex_entry; bare_entry; freq_entry]
  = Raise IndexError
  ∧ Dimensions.init_current_dimensions [sex_entry; freq_entry]
    = Ok (<["SEX" := Some "SEX_T"]> (<["FREQ" := Some "A"]> ∅)).
Proof. split; vm_compute; reflexivity. Qed.

(** X2: a second entry for SEX replaces the code of the first. *)
Lemma init_current_dimensions_last_wins_witness :
  ∃ val, Dimensions.entry_default sex_entry' = Ok val
    ∧ (<["SEX" := Some "SEX_F"]> (<["FREQ" := Some "A"]> ∅)
         : gmap string (option string)) !! "SEX" = Some (Some val).
Proof.
  apply (init_current_dimensions_last_wins [sex_entry] [freq_entry]
           sex_entry' "SEX").
  - vm_compute. reflexivity.
  - reflexivity.
  - intros later Hin. apply list_elem_of_singleton in Hin. subst later.
    discriminate.
Defined.

Lemma init_current_dimensions_keys_witness :
  dom (<["SEX" := Some "SEX_T"]> (<["FREQ" := Some "A"]> ∅)
         : gmap string (option string))
  = list_to_set (Dimensions.entry_keys [sex_entry; freq_entry])
  ∧ length (Dimensions.entry_keys [sex_entry; freq_entry]) = 2
  ∧ (NoDup (Dimensions.entry_keys [sex_entry; freq_entry]) →
     size (<["SEX" := Some "SEX_T"]> (<["FREQ" := Some "A"]> ∅)
             : gmap string (option string)) = 2).
Proof.
  apply (init_current_dimensions_keys [sex_entry; freq_entry]).
  vm_compute. reflexivity.
Defined.

(** X4: a service that cannot be reached, and one that does not know the
    dataflow. *)
Lemma query_construction_outcomes_witness :
  (@ILOStatQuery.__init__ Examples.flat service_down "DF_Y" ∅ ∅ world0).1
  = Raise (RemoteError "unreachable")
  ∧ (@ILOStatQuery.__init__ Examples.flat service_empty "DF_Y" ∅ ∅ world0).1
    = Raise (KeyError "DF_Y").
Proof.
  split.
  - destruct (@query_construction_outcomes Examples.flat service_down "DF_Y"
                ∅ ∅ world0) as (_ & Hfail & _).
    apply Hfail. reflexivity.
  - destruct (@query_construction_outcomes Examples.flat service_empty "DF_Y"
                ∅ ∅ world0) as (_ & _ & Hmissing & _).
    apply (Hmissing {| dataflow := []; constraint := [] |}); [reflexivity|].
    apply not_elem_of_nil.
Defined.

Lemma data_frame_rectangular_witness :
  ∃ df, (@ILOStatQuery.data Examples.flat (query_Y ∅ ∅) world0).1 = Ok df
    ∧ last (columns df) = Some "value"
    ∧ Forall (λ row, length row = length (columns df)) (rows df).
Proof.
  apply (@data_frame_rectangular Examples.flat (query_Y ∅ ∅) world0 dsd_Y
           (@Build_DataMessage Examples.flat [group_Y; group_Z]) group_Y
           [group_Z] series_Y); try reflexivity.
  - decide_it.
  - decide_it.
  - unfold rectangular. decide_it.
Defined.

(** X6 and X7 at a frame whose second row has the empty text as value. *)
Lemma render_chart_replaces_empty_values_witness :
  "value" ∈ columns frame_S
  ∧ columns frame_S = columns frame_S
  ∧ length [ [Str "SEX_M"; Str "2015"; Str "1"];
             [Str "SEX_F"; Str "2015"; NaN] ] = length (rows frame_S)
  ∧ ∀ i row, rows frame_S !! i = Some row →
      ∃ row',
        [ [Str "SEX_M"; Str "2015"; Str "1"];
          [Str "SEX_F"; Str "2015"; NaN] ] !! i = Some row'
        ∧ length row' = length row
        ∧ (∀ j, columns frame_S !! j ≠ Some "value" → row' !! j = row !! j)
        ∧ (∀ j, columns frame_S !! j = Some "value" →
             row' !! j = replace_cell (Str EmptyString) NaN <$> row !! j
             ∧ row' !! j ≠ Some (Str EmptyString)).
Proof.
  apply (render_chart_replaces_empty_values frame_S
           {| columns := ["CLASSIF1"; "TIME_PERIOD"; "value"];
              rows := [ [Str "SEX_M"; Str "2015"; Str "1"];
                        [Str "SEX_F"; Str "2015"; NaN] ] |}).
  reflexivity.
Defined.

Lemma render_chart_idempotent_witness :
  AppController.render_chart
    {| columns := ["CLASSIF1"; "TIME_PERIOD"; "value"];
       rows := [ [Str "SEX_M"; Str "2015"; Str "1"];
                 [Str "SEX_F"; Str "2015"; NaN] ] |}
  = Some {| columns := ["CLASSIF1"; "TIME_PERIOD"; "value"];
            rows := [ [Str "SEX_M"; Str "2015"; Str "1"];
                      [Str "SEX_F"; Str "2015"; NaN] ] |}.
Proof. apply (render_chart_idempotent frame_S). reflexivity. Defined.

(** A frame with two columns called [value]: both are replaced. *)
Example render_chart_two_value_columns :
  AppController.render_chart
    {| columns := ["value"; "TIME_PERIOD"; "value"];
       rows := [ [Str EmptyString; Str "2015"; Str EmptyString] ] |}
  = Some {| columns := ["value"; "TIME_PERIOD"; "value"];
            rows := [ [NaN; Str "2015"; NaN] ] |}.
Proof. reflexivity. Qed.


(** X9: the frame of DF_Y has the columns FREQ, REF_AREA, TIME_PERIOD and
    value, none of them a classification: its chart has no line, whereas
    the frame with the column CLASSIF1 has that column plotted. *)
Lemma chart_without_classification_witness :
  Chart.render_chart_lines (λ df _, [(NaN, df)]) frame_Y = Some (Ok []).
Proof.
  apply (@chart_without_classification Examples.flat (query_Y ∅ ∅) world0
           frame_Y); reflexivity.
Defined.

Example chart_with_classification :
  Chart.classifications frame_S = ["CLASSIF1"]
  ∧ Chart.render_chart_lines
      (λ df col, [(Str "SEX_F", {| columns := columns df;
                                   rows := drop 1 (rows df) |});
                  (Str "SEX_M", {| columns := columns df;
                                   rows := take 1 (rows df) |})])
      frame_S
    = Some (Ok [ {| Chart.xs := [Str "2015"]; Chart.ys := [NaN];
                    Chart.label := Str "SEX_F" |};
                 {| Chart.xs := [Str "2015"]; Chart.ys := [Str "1"];
                    Chart.label := Str "SEX_M" |} ]).
Proof. split; reflexivity. Qed.

Lemma crawl_round_trips_witness :
  calls (@countries.main Examples.flat true catalog_X world0).2
  = [CallDataflow None; CallDataflow (Some "DF_X")].
Proof.
  destruct (@crawl_round_trips Examples.flat true catalog_X world0)
    as (k & Hk & HOk).
  rewrite Hk, (HOk eq_refl). reflexivity.
Defined.

Lemma crawl_progress_report_witness :
  progress (stdout (@countries.main Examples.flat true catalog_X world0).2)
  = [Finished "DF_X"; Processed 1 1].
Proof.
  destruct (@crawl_progress_report Examples.flat true catalog_X world0)
    as (j & Hj & HOk).
  rewrite Hj, (HOk eq_refl). reflexivity.
Defined.

Lemma crawl_stores_only_region_pairs_witness :
  "DF_X" ∈ listed catalog_X
  ∧ ∃ msg constraint_id c codes,
      remote_dataflow catalog_X (Some "DF_X") = Ok msg
      ∧ dict_get (constraint msg) constraint_id = Ok c
      ∧ ref_area_codes c = Some codes
      ∧ "ITA" ∈ codes.
Proof.
  destruct (@crawl_stores_only_region_pairs Examples.flat true catalog_X
              world0) as (added & Hdb & Hall).
  apply Hall. vm_compute in Hdb. rewrite <- Hdb. apply list_elem_of_here.
Defined.

Lemma crawl_aborts_without_content_region_witness :
  (@countries.main Examples.flat true catalog_H world0).1 = Raise IndexError
  ∧ db (@countries.main Examples.flat true catalog_H world0).2
    = db world0 ++ flat_map (region_pairs catalog_H) []
        ++ flat_map (λ kc, constraint_pairs "DF_H" kc.2)
             [("CR_AREA", region_constraint ["ITA"])].
Proof.
  apply (@crawl_aborts_without_content_region Examples.flat true catalog_H
           world0 (listing ["DF_H"])
           {| dataflow := [];
              constraint := [("CR_AREA", region_constraint ["ITA"]);
                             ("CR_HOLLOW", hollow_constraint)] |}
           [] [] "DF_H" [("CR_AREA", region_constraint ["ITA"])] []
           "CR_HOLLOW" hollow_constraint);
    try reflexivity. decide_it.
Defined.

Lemma set_dataframe_keeps_values_witness :
  selection_sent (Some "ITA") sparse_selection !! "FREQ" = Some (Some "A")
  ∧ ((Some "ITA" = Some "ITA" ∧ truthy (Some "ITA") = true)
     ∨ sparse_selection !! "REF_AREA" = Some (Some "ITA")).
Proof.
  destruct (set_dataframe_keeps_values (Some "ITA") sparse_selection)
    as [Hsent Hkept].
  split.
  - apply Hkept; [reflexivity|reflexivity|]. left. discriminate.
  - destruct (Hsent "REF_AREA" (Some "ITA")) as [(_ & H1 & H2)|H3].
    + vm_compute. reflexivity.
    + left. by split.
    + by right.
Defined.

Lemma set_dataframe_unbounded_witness :
  params_sent None None = ∅
  ∧ params_sent (Some EmptyString) None = ∅.
Proof.
  split.
  - apply (set_dataframe_unbounded None None). split; reflexivity.
  - apply (set_dataframe_unbounded (Some EmptyString) None).
    split; reflexivity.
Defined.

(** X17 at a constraint with the regions [ITA] and [FRA] in two content
    regions: only ITA is stored. *)
Example crawl_two_regions :
  db (@countries.main Examples.flat false catalog_2R world0).2
  = [("ITA", "DF_R")].
Proof. reflexivity. Qed.
